(** * Echoes of Lagos web viewer: camera framing and constrained navigation

    A shallow embedding of [src/main.js].  The script keeps its state in
    module-level variables ([camera], [controls], [isShiftDragging],
    [previousY]) that three DOM handlers, the loader callbacks, the reset
    button and the animation loop mutate; here that state is one record,
    [Viewer], threaded through a [step] function, one case per handler.

    JavaScript numbers are IEEE-754 doubles.  The development idealises them
    as real numbers: [Math.tan], [Math.cos], [Math.sin], [Math.PI] and
    [Math.max] are [tan], [cos], [sin], [PI] and [Rmax], and rounding is left
    out.  Every statement below is a statement about that idealisation. *)

From Stdlib Require Import Reals Psatz List Bool ZArith.
From Stdlib Require String DecimalString.
Import String.StringSyntax.
Bind Scope string_scope with String.string.
Import ListNotations.
Open Scope R_scope.

(** ** Vectors ([THREE.Vector3]) *)

Module Vector3.

Record t : Type := mk { x : R; y : R; z : R }.

Definition zero : t := mk 0 0 0.

Definition add (a b : t) : t := mk (x a + x b) (y a + y b) (z a + z b).

Definition sub (a b : t) : t := mk (x a - x b) (y a - y b) (z a - z b).

Definition multiplyScalar (a : t) (s : R) : t := mk (x a * s) (y a * s) (z a * s).

Definition divideScalar (a : t) (s : R) : t := multiplyScalar a (1 / s).

Definition negate (a : t) : t := mk (- x a) (- y a) (- z a).

(** [this.x += v.x * s; this.y += v.y * s; this.z += v.z * s]. *)
Definition addScaledVector (a v : t) (s : R) : t :=
  mk (x a + x v * s) (y a + y v * s) (z a + z v * s).

Definition dot (a b : t) : R := x a * x b + y a * y b + z a * z b.

Definition cross (a b : t) : t :=
  mk (y a * z b - z a * y b) (z a * x b - x a * z b) (x a * y b - y a * x b).

Definition lengthSq (a : t) : R := x a * x a + y a * y a + z a * z a.

Definition length (a : t) : R := sqrt (lengthSq a).

(** [this.divideScalar(this.length() || 1)]. *)
Definition normalize (a : t) : t :=
  divideScalar a (if Req_dec_T (length a) 0 then 1 else length a).

Definition distanceTo (a b : t) : R := length (sub a b).

End Vector3.

(** ** Spherical coordinates ([THREE.Spherical]) *)

(** [Math.max(lo, Math.min(hi, v))]. *)
Definition clamp (lo hi v : R) : R := Rmax lo (Rmin hi v).

(** [Math.atan2(y, x)] on real arguments (signed zeros are not modelled). *)
Definition atan2 (y x : R) : R :=
  match total_order_T x 0 with
  | inleft (left _) => if Rle_dec 0 y then atan (y / x) + PI else atan (y / x) - PI
  | inleft (right _) =>
      match total_order_T y 0 with
      | inleft (left _) => - (PI / 2)
      | inleft (right _) => 0
      | inright _ => PI / 2
      end
  | inright _ => atan (y / x)
  end.

Module Spherical.

(** [phi] is the polar angle (from the +y axis), [theta] the azimuth
    (around the y axis, from +z). *)
Record t : Type := mk { radius : R; phi : R; theta : R }.

Definition setFromVector3 (v : Vector3.t) : t :=
  let r := Vector3.length v in
  if Req_dec_T r 0 then mk 0 0 0
  else mk r (acos (clamp (-1) 1 (Vector3.y v / r)))
            (atan2 (Vector3.x v) (Vector3.z v)).

(** [Vector3.setFromSpherical]. *)
Definition toVector3 (s : t) : Vector3.t :=
  let sinPhiRadius := sin (phi s) * radius s in
  Vector3.mk (sinPhiRadius * sin (theta s))
             (cos (phi s) * radius s)
             (sinPhiRadius * cos (theta s)).

End Spherical.

(** ** Bounding boxes ([THREE.Box3]) *)

Module Box3.

Record t : Type := mk { min : Vector3.t; max : Vector3.t }.

Definition isEmpty (b : t) : bool :=
  if Rlt_dec (Vector3.x (max b)) (Vector3.x (min b)) then true
  else if Rlt_dec (Vector3.y (max b)) (Vector3.y (min b)) then true
  else if Rlt_dec (Vector3.z (max b)) (Vector3.z (min b)) then true
  else false.

Definition getCenter (b : t) : Vector3.t :=
  if isEmpty b then Vector3.zero
  else Vector3.multiplyScalar (Vector3.add (min b) (max b)) (1 / 2).

Definition getSize (b : t) : Vector3.t :=
  if isEmpty b then Vector3.zero else Vector3.sub (max b) (min b).

End Box3.

(** ** The framing computation (the [onLoad] callback, lines 98-120) *)

Definition angle : R := PI / 4.
Definition zoomMultiplier : R := 0.18.
Definition heightMultiplier : R := 0.4.

(** [Math.max(size.x, size.y, size.z)]. *)
Definition maxDim (size : Vector3.t) : R :=
  Rmax (Rmax (Vector3.x size) (Vector3.y size)) (Vector3.z size).

(** [camera.fov * (Math.PI / 180)]. *)
Definition fovRadians (fovDegrees : R) : R := fovDegrees * (PI / 180).

(** [let distance = maxDim / (2 * Math.tan(fov / 2)); distance *= 1.2]. *)
Definition frameDistance (size : Vector3.t) (fovDegrees : R) : R :=
  maxDim size / (2 * tan (fovRadians fovDegrees / 2)) * 1.2.

(** The argument of [camera.position.set]. *)
Definition framePosition (distance : R) : Vector3.t :=
  Vector3.mk (distance * zoomMultiplier * cos angle)
             (distance * heightMultiplier)
             (distance * zoomMultiplier * sin angle).

(** [camera.near = maxDim / 100; camera.far = maxDim * 100]. *)
Definition frameNear (size : Vector3.t) : R := maxDim size / 100.
Definition frameFar (size : Vector3.t) : R := maxDim size * 100.

(** [controls.minDistance = maxDim * 0.1; controls.maxDistance = maxDim * 5]. *)
Definition frameMinDistance (size : Vector3.t) : R := maxDim size * 0.1.
Definition frameMaxDistance (size : Vector3.t) : R := maxDim size * 5.

(** ** The camera ([THREE.PerspectiveCamera]) *)

(** The z axis [Matrix4.lookAt(eye, target, up)] builds, for the default
    [up = (0, 1, 0)]: the normalised [eye - target], with (0, 0, 1) when the
    two points coincide and a nudge of 0.0001 along z when it is parallel
    to [up]. *)
Definition up : Vector3.t := Vector3.mk 0 1 0.

Definition lookAtZ (eye target : Vector3.t) : Vector3.t :=
  let d := Vector3.sub eye target in
  let z0 :=
    if Req_dec_T (Vector3.lengthSq d) 0
    then Vector3.mk (Vector3.x d) (Vector3.y d) 1 else d in
  let z1 := Vector3.normalize z0 in
  if Req_dec_T (Vector3.lengthSq (Vector3.cross up z1)) 0
  then Vector3.normalize
         (Vector3.mk (Vector3.x z1) (Vector3.y z1) (Vector3.z z1 + 0.0001))
  else z1.

Module Camera.

(** The orientation is kept as [direction], the unit vector the camera
    looks along (three.js keeps a quaternion; the script reads it only
    through [getWorldDirection]). *)
Record t : Type := mk {
  position : Vector3.t;
  direction : Vector3.t;
  fov : R;
  aspect : R;
  near : R;
  far : R
}.

Definition setPosition (c : t) (p : Vector3.t) : t :=
  mk p (direction c) (fov c) (aspect c) (near c) (far c).

Definition setClipping (c : t) (n f : R) : t :=
  mk (position c) (direction c) (fov c) (aspect c) n f.

Definition setAspect (c : t) (a : R) : t :=
  mk (position c) (direction c) (fov c) a (near c) (far c).

(** [camera.lookAt(target)]: a camera looks down its negative z axis. *)
Definition lookAt (c : t) (target : Vector3.t) : t :=
  mk (position c) (Vector3.negate (lookAtZ (position c) target))
     (fov c) (aspect c) (near c) (far c).

Definition getWorldDirection (c : t) : Vector3.t := direction c.

End Camera.

(** ** The orbit controller ([OrbitControls]) *)

(** The configuration the script writes once (lines 35-43). *)
Definition dampingFactor : R := 0.1.
Definition rotateSpeed : R := 0.5.
Definition minPolarAngle : R := PI / 3.
Definition maxPolarAngle : R := PI / 3.
Definition minAzimuthAngle : R := - PI / 4.
Definition maxAzimuthAngle : R := PI / 4.

Module OrbitControls.

(** [enabled], [target], [minDistance] and [maxDistance] are the properties
    the script writes.  [maxDistance = None] stands for the value before
    framing, which bounds nothing.  The other fields are the controller's
    own: the rotation and zoom still to be applied ([thetaDelta],
    [phiDelta], [scale]), the spherical coordinates of its last update, and
    the pose [saveState] took ([position0], [target0]). *)
Record t : Type := mk {
  enabled : bool;
  target : Vector3.t;
  minDistance : R;
  maxDistance : option R;
  thetaDelta : R;
  phiDelta : R;
  scale : R;
  spherical : Spherical.t;
  position0 : Vector3.t;
  target0 : Vector3.t
}.

Definition setEnabled (o : t) (b : bool) : t :=
  mk b (target o) (minDistance o) (maxDistance o) (thetaDelta o) (phiDelta o)
     (scale o) (spherical o) (position0 o) (target0 o).

Definition setTarget (o : t) (p : Vector3.t) : t :=
  mk (enabled o) p (minDistance o) (maxDistance o) (thetaDelta o) (phiDelta o)
     (scale o) (spherical o) (position0 o) (target0 o).

Definition setLimits (o : t) (lo : R) (hi : option R) : t :=
  mk (enabled o) (target o) lo hi (thetaDelta o) (phiDelta o)
     (scale o) (spherical o) (position0 o) (target0 o).

Definition clampDistance (o : t) (r : R) : R :=
  match maxDistance o with
  | Some hi => clamp (minDistance o) hi r
  | None => Rmax (minDistance o) r
  end.

(** Modelled from the spec: the pointer-drag handler of the orbit
    controller, which is imported from three.js and not part of src/.
    Section 4.2: drag-to-rotate, scaled by the rotate speed and accumulated
    for the next update ([applyRotate]); nothing happens while the
    controller is disabled ([rotate]). *)
Definition applyRotate (o : t) (dTheta dPhi : R) : t :=
  mk (enabled o) (target o) (minDistance o) (maxDistance o)
     (thetaDelta o - rotateSpeed * dTheta) (phiDelta o - rotateSpeed * dPhi)
     (scale o) (spherical o) (position0 o) (target0 o).

(** Modelled from the spec: the same handler as the controller runs it,
    section 4.2: a disabled controller takes no rotation input. *)
Definition rotate (o : t) (dTheta dPhi : R) : t :=
  if enabled o then applyRotate o dTheta dPhi else o.

(** Modelled from the spec: the wheel handler of the orbit controller
    (three.js, not part of src/).  Section 4.2: scroll-to-zoom, applied and
    clamped by the next update ([applyZoom]); nothing happens while the
    controller is disabled ([zoom]). *)
Definition applyZoom (o : t) (factor : R) : t :=
  mk (enabled o) (target o) (minDistance o) (maxDistance o)
     (thetaDelta o) (phiDelta o) (scale o * factor) (spherical o)
     (position0 o) (target0 o).

(** Modelled from the spec: the same handler as the controller runs it,
    section 4.2: a disabled controller takes no zoom input. *)
Definition zoom (o : t) (factor : R) : t :=
  if enabled o then applyZoom o factor else o.

(** Modelled from the spec: [controls.update()] of the orbit controller
    (three.js, not part of src/).  Section 4.2: the camera orbits [target];
    each update blends the angles by the damping factor, clamps the polar
    angle to [minPolarAngle, maxPolarAngle], the azimuth to
    [minAzimuthAngle, maxAzimuthAngle] and the distance to
    [minDistance, maxDistance], and points the camera at the target. *)
Definition applyUpdate (o : t) (c : Camera.t) : t * Camera.t :=
  let offset := Vector3.sub (Camera.position c) (target o) in
  let s := Spherical.setFromVector3 offset in
  let theta :=
    clamp minAzimuthAngle maxAzimuthAngle
          (Spherical.theta s + thetaDelta o * dampingFactor) in
  let phi :=
    clamp minPolarAngle maxPolarAngle
          (Spherical.phi s + phiDelta o * dampingFactor) in
  let radius := clampDistance o (Spherical.radius s * scale o) in
  let s' := Spherical.mk radius phi theta in
  let p := Vector3.add (target o) (Spherical.toVector3 s') in
  (mk (enabled o) (target o) (minDistance o) (maxDistance o)
      (thetaDelta o * (1 - dampingFactor)) (phiDelta o * (1 - dampingFactor))
      1 s' (position0 o) (target0 o),
   Camera.lookAt (Camera.setPosition c p) (target o)).

(** Modelled from the spec: [controls.update()] as the script calls it, on
    every frame (line 197) and at the end of the load callback (line 121).
    [enabled] switches the controller's input handlers off, not its
    update: the update tests no flag. *)
Definition update (o : t) (c : Camera.t) : t * Camera.t := applyUpdate o c.

(** Modelled from the spec: [controls.saveState()] (three.js, not part of
    src/).  Section 4.2: the baseline snapshot holds the pose, the camera
    position and the target, as they are when it is taken.  The distance
    limits are properties of the controller that neither [saveState] nor
    [reset] touches. *)
Definition saveState (o : t) (c : Camera.t) : t :=
  mk (enabled o) (target o) (minDistance o) (maxDistance o)
     (thetaDelta o) (phiDelta o) (scale o) (spherical o)
     (Camera.position c) (target o).

(** Modelled from the spec: [controls.reset()] (three.js, not part of
    src/).  Section 4.2: reset puts the camera position and the target of
    the baseline snapshot back; it then runs [update], which applies the
    rotation and zoom still pending and points the camera at the target. *)
Definition reset (o : t) (c : Camera.t) : t * Camera.t :=
  update (mk (enabled o) (target0 o) (minDistance o) (maxDistance o)
             (thetaDelta o) (phiDelta o) (scale o) (spherical o)
             (position0 o) (target0 o))
         (Camera.setPosition c (position0 o)).

End OrbitControls.

(** ** The viewer: the script's module-level state *)

Record Viewer : Type := mkViewer {
  camera : Camera.t;
  controls : OrbitControls.t;
  isShiftDragging : bool;
  previousY : R;
  progressVisible : bool
}.

(** The state the declarations of the script build, in a window of the
    given size (lines 8-46): [new THREE.PerspectiveCamera(75, w / h, 0.1,
    10000)] at the origin looking down -z, an enabled controller around the
    origin with no distance limits yet, no gesture, the loading indicator
    showing. *)
Definition constructed (innerWidth innerHeight : R) : Viewer :=
  mkViewer
    (Camera.mk Vector3.zero (Vector3.mk 0 0 (-1)) 75
               (innerWidth / innerHeight) 0.1 10000)
    (OrbitControls.mk true Vector3.zero 0 None 0 0 1 (Spherical.mk 0 0 0)
                      Vector3.zero Vector3.zero)
    false 0 true.

(** What the host delivers.  [OrbitDrag] and [Wheel] are the rotate drag
    and the wheel input the orbit controller listens to (its pan drag, which
    moves the target, is not among the events); [Tick] is one run of
    [animate]; [KeyDown] and [KeyUp] are the modifier key going down and
    up, which no handler of the script listens to. *)
Inductive Event : Type :=
| MouseDown (button : Z) (shiftKey : bool) (clientY : R)
| MouseUp (button : Z) (shiftKey : bool)
| MouseMove (shiftKey : bool) (clientY : R)
| KeyDown
| KeyUp
| OrbitDrag (dTheta dPhi : R)
| Wheel (factor : R)
| Tick
| ResetClick
| Resize (innerWidth innerHeight : R)
| Loaded (box : Box3.t)
| LoadError.

(** The [mousedown] listener (lines 48-55). *)
Definition onMouseDown (button : Z) (shiftKey : bool) (clientY : R)
    (v : Viewer) : Viewer :=
  if (button =? 0)%Z && shiftKey then
    mkViewer (camera v) (OrbitControls.setEnabled (controls v) false)
             true clientY (progressVisible v)
  else v.

(** The [mouseup] listener (lines 56-61): it takes no argument. *)
Definition onMouseUp (v : Viewer) : Viewer :=
  if isShiftDragging v then
    mkViewer (camera v) (OrbitControls.setEnabled (controls v) true)
             false (previousY v) (progressVisible v)
  else v.

(** [const zoomSpeed = 0.5]. *)
Definition zoomSpeed : R := 0.5.

(** The [mousemove] listener (lines 62-71): it reads [e.clientY] only. *)
Definition onMouseMove (clientY : R) (v : Viewer) : Viewer :=
  if isShiftDragging v then
    let deltaY := clientY - previousY v in
    let direction := Camera.getWorldDirection (camera v) in
    mkViewer
      (Camera.setPosition (camera v)
         (Vector3.addScaledVector (Camera.position (camera v)) direction
                                  (- deltaY * zoomSpeed)))
      (controls v) (isShiftDragging v) clientY (progressVisible v)
  else v.

(** The loader's success callback (lines 88-126).  [box] is what
    [new THREE.Box3().setFromObject(model)] returned; the model itself,
    which the callback recentres, is not part of the state. *)
Definition onLoad (box : Box3.t) (v : Viewer) : Viewer :=
  let size := Box3.getSize box in
  let distance := frameDistance size (Camera.fov (camera v)) in
  let c1 := Camera.setPosition (camera v) (framePosition distance) in
  let c2 := Camera.lookAt c1 Vector3.zero in
  let c3 := Camera.setClipping c2 (frameNear size) (frameFar size) in
  let o1 := OrbitControls.setTarget (controls v) Vector3.zero in
  let o2 := OrbitControls.setLimits o1 (frameMinDistance size)
                                    (Some (frameMaxDistance size)) in
  let (o3, c4) := OrbitControls.update o2 c3 in
  let o4 := OrbitControls.saveState o3 c4 in
  mkViewer c4 o4 (isShiftDragging v) (previousY v) false.

(** The loader's error callback (lines 133-135): it logs and returns. *)
Definition onError (v : Viewer) : Viewer := v.

(** The [resize] listener (lines 182-187). *)
Definition onResize (innerWidth innerHeight : R) (v : Viewer) : Viewer :=
  mkViewer (Camera.setAspect (camera v) (innerWidth / innerHeight))
           (controls v) (isShiftDragging v) (previousY v) (progressVisible v).

(** The reset button's [click] listener (line 191). *)
Definition onResetClick (v : Viewer) : Viewer :=
  let (o, c) := OrbitControls.reset (controls v) (camera v) in
  mkViewer c o (isShiftDragging v) (previousY v) (progressVisible v).

(** [animate] (lines 195-204): [controls.update()]; the fog radius it also
    sets is cosmetic and not part of the state. *)
Definition animate (v : Viewer) : Viewer :=
  let (o, c) := OrbitControls.update (controls v) (camera v) in
  mkViewer c o (isShiftDragging v) (previousY v) (progressVisible v).

(** The state after the script's top level has run: its last statement
    (line 205) calls [animate] once; every later event finds this state. *)
Definition initial (innerWidth innerHeight : R) : Viewer :=
  animate (constructed innerWidth innerHeight).

Definition onOrbitDrag (dTheta dPhi : R) (v : Viewer) : Viewer :=
  mkViewer (camera v) (OrbitControls.rotate (controls v) dTheta dPhi)
           (isShiftDragging v) (previousY v) (progressVisible v).

Definition onWheel (factor : R) (v : Viewer) : Viewer :=
  mkViewer (camera v) (OrbitControls.zoom (controls v) factor)
           (isShiftDragging v) (previousY v) (progressVisible v).

Definition step (v : Viewer) (e : Event) : Viewer :=
  match e with
  | MouseDown button shiftKey clientY => onMouseDown button shiftKey clientY v
  | MouseUp _ _ => onMouseUp v
  | MouseMove _ clientY => onMouseMove clientY v
  | KeyDown | KeyUp => v
  | OrbitDrag dTheta dPhi => onOrbitDrag dTheta dPhi v
  | Wheel factor => onWheel factor v
  | Tick => animate v
  | ResetClick => onResetClick v
  | Resize w h => onResize w h v
  | Loaded box => onLoad box v
  | LoadError => onError v
  end.

Definition run (v : Viewer) (es : list Event) : Viewer := fold_left step es v.

(** Input addressed to the orbit controller. *)
Definition isOrbitInput (e : Event) : bool :=
  match e with
  | OrbitDrag _ _ | Wheel _ | Tick => true
  | _ => false
  end.

Definition isMouseUp (e : Event) : bool :=
  match e with
  | MouseUp _ _ => true
  | _ => false
  end.

Definition isLoaded (e : Event) : bool :=
  match e with
  | Loaded _ => true
  | _ => false
  end.

Definition notMouseUp (e : Event) : bool := negb (isMouseUp e).



Definition notLoaded (e : Event) : bool := negb (isLoaded e).

(** What a reset starts from: the pose [saveState] took last, and the
    distance limits, which stay as the load callback set them. *)
Definition baseline (v : Viewer) : Vector3.t * Vector3.t * R * option R :=
  (OrbitControls.position0 (controls v), OrbitControls.target0 (controls v),
   OrbitControls.minDistance (controls v),
   OrbitControls.maxDistance (controls v)).

(** The pose and limits in force. *)
Definition poseAndLimits (v : Viewer) : Vector3.t * Vector3.t * R * option R :=
  (Camera.position (camera v), OrbitControls.target (controls v),
   OrbitControls.minDistance (controls v),
   OrbitControls.maxDistance (controls v)).

(** What every orbit update establishes: the controller's azimuth and polar
    angle are within the configured limits and the camera sits at those
    spherical coordinates around the target. *)
Definition orbitInvariant (v : Viewer) : Prop :=
  let s := OrbitControls.spherical (controls v) in
  minAzimuthAngle <= Spherical.theta s <= maxAzimuthAngle
  /\ Spherical.phi s = PI / 3
  /\ Camera.position (camera v)
     = Vector3.add (OrbitControls.target (controls v)) (Spherical.toVector3 s).

(** What an orbit input does to the viewer when the controller takes it. *)
Definition orbitEffect (e : Event) (v : Viewer) : Viewer :=
  match e with
  | OrbitDrag dTheta dPhi =>
      mkViewer (camera v) (OrbitControls.applyRotate (controls v) dTheta dPhi)
               (isShiftDragging v) (previousY v) (progressVisible v)
  | Wheel factor =>
      mkViewer (camera v) (OrbitControls.applyZoom (controls v) factor)
               (isShiftDragging v) (previousY v) (progressVisible v)
  | Tick =>
      let (o, c) := OrbitControls.applyUpdate (controls v) (camera v) in
      mkViewer c o (isShiftDragging v) (previousY v) (progressVisible v)
  | _ => v
  end.

(** Orbit input is enabled exactly when no modifier-drag is in progress. *)
Definition modeInvariant (v : Viewer) : Prop :=
  OrbitControls.enabled (controls v) = negb (isShiftDragging v).

Definition unitDirection (v : Viewer) : Prop :=
  Vector3.length (Camera.getWorldDirection (camera v)) = 1.

(** What a claimed value "approximately v" is read as: within [tol] of [v]. *)
Definition approx (tol x v : R) : Prop := Rabs (x - v) <= tol.

(** ** The loader's progress callback (lines 127-132) *)

(** The decimal digits of a natural number, as [ToString] prints them. *)
Definition digits (n : Z) : String.string :=
  DecimalString.NilZero.string_of_uint (N.to_uint (Z.to_N n)).

(** [x.toFixed(0)]: the sign, then the integer nearest to the magnitude,
    the larger one on a tie.  (For magnitudes from 10^21 on JavaScript
    prints an exponent instead; the callback's percentages are far below.) *)
Definition toFixed0 (x : R) : String.string :=
  if Rlt_dec x 0
  then String.append "-" (digits (Int_part (- x + 1 / 2)))
  else digits (Int_part (x + 1 / 2)).

(** The template literal [`Loading ${percent}%`]. *)
Definition loadingText (percent : String.string) : String.string :=
  String.append "Loading " (String.append percent "%").

(** The progress callback.  [progressElement] is what
    [document.getElementById('progress')] finds: [None] for no element,
    otherwise the element's [innerText]; the result is the text after the
    call. *)
Definition onProgress (progressElement : option String.string)
    (loaded total : R) : option String.string :=
  match progressElement with
  | Some innerText =>
      if Rlt_dec 0 total
      then Some (loadingText (toFixed0 (loaded / total * 100)))
      else Some innerText
  | None => None
  end.

(** ** The radial fog shader (lines 139-173, 199-201) *)

Module FogShader.

(** The GLSL built-ins the fragment shader calls. *)
Definition clamp (x minVal maxVal : R) : R := Rmin (Rmax x minVal) maxVal.

Definition smoothstep (edge0 edge1 x : R) : R :=
  let t := clamp ((x - edge0) / (edge1 - edge0)) 0 1 in
  t * t * (3 - 2 * t).

Definition mix (x y a : R) : R := x * (1 - a) + y * a.

Record vec2 : Type := mkVec2 { x : R; y : R }.

Definition distance (p q : vec2) : R :=
  sqrt ((x p - x q) * (x p - x q) + (y p - y q) * (y p - y q)).

Record vec3 : Type := mkVec3 { r : R; g : R; b : R }.

Record vec4 : Type := mkVec4 { rgb : vec3; a : R }.

Definition mix3 (p q : vec3) (t : R) : vec3 :=
  mkVec3 (mix (r p) (r q) t) (mix (g p) (g q) t) (mix (b p) (b q) t).

Record Uniforms : Type := mkUniforms {
  fogColor : vec3;
  strength : R;
  radius : R;
  softness : R
}.

(** [main] of the fragment shader: [sceneColor] is the texel
    [texture2D(tDiffuse, vUv)], the result is [gl_FragColor]. *)
Definition fogFactor (uniforms : Uniforms) (vUv : vec2) : R :=
  let center := mkVec2 0.5 0.5 in
  let dist := distance vUv center in
  smoothstep (radius uniforms) (radius uniforms + softness uniforms) dist.

Definition main (uniforms : Uniforms) (sceneColor : vec4) (vUv : vec2) : vec4 :=
  let finalColor :=
    mix3 (rgb sceneColor) (fogColor uniforms)
         (fogFactor uniforms vUv * strength uniforms) in
  mkVec4 finalColor (a sceneColor).

(** The uniforms once [animate] has set the radius for its time
    accumulator [t]: [0.85 + Math.sin(t) * 0.01]; strength and softness
    keep their initial 1.0 and 0.2. *)
Definition uniformsAt (color : vec3) (t : R) : Uniforms :=
  mkUniforms color 1.0 (0.85 + sin t * 0.01) 0.2.

End FogShader.

(** ** Recentring the model (lines 93-96) *)

(** [model.position.sub(center)]: the model moves by minus the centre of
    its bounding box, and its world bounding box moves with it. *)
Definition recentred (box : Box3.t) : Box3.t :=
  let center := Box3.getCenter box in
  Box3.mk (Vector3.sub (Box3.min box) center)
          (Vector3.sub (Box3.max box) center).

(** ** Helpers for statements about event sequences *)

Definition isResize (e : Event) : bool :=
  match e with
  | Resize _ _ => true
  | _ => false
  end.

Definition notResize (e : Event) : bool := negb (isResize e).

Definition withAspect (a : R) (v : Viewer) : Viewer :=
  mkViewer (Camera.setAspect (camera v) a) (controls v) (isShiftDragging v)
           (previousY v) (progressVisible v).

(** The aspect ratio the last resize of a sequence leaves. *)
Definition aspectAfter (a : R) (es : list Event) : R :=
  fold_left (fun a e => match e with
                        | Resize w h => w / h
                        | _ => a
                        end) es a.

(** Pointer moves and modifier-key changes: what a drag consists of. *)
Definition isDragInput (e : Event) : bool :=
  match e with
  | MouseMove _ _ | KeyDown | KeyUp => true
  | _ => false
  end.

(** The pointer's y coordinate after a sequence of events. *)
Definition pointerY (y : R) (es : list Event) : R :=
  fold_left (fun y e => match e with
                        | MouseMove _ clientY => clientY
                        | _ => y
                        end) es y.

(** The clipping planes and zoom limits in force. *)
Definition ranges (v : Viewer) : R * R * R * option R :=
  (Camera.near (camera v), Camera.far (camera v),
   OrbitControls.minDistance (controls v),
   OrbitControls.maxDistance (controls v)).


(** The camera looks along the line through the orbit target: the target
    is at [along] times the view direction from the camera. *)
Definition aimedAt (v : Viewer) (along : R) : Prop :=
  Vector3.sub (OrbitControls.target (controls v)) (Camera.position (camera v))
  = Vector3.multiplyScalar (Camera.getWorldDirection (camera v)) along.

(** An offset [lookAt] handles without its nudge: zero, or off the y axis. *)
Definition offAxis (w : Vector3.t) : Prop :=
  Vector3.lengthSq w = 0
  \/ Vector3.x w * Vector3.x w + Vector3.z w * Vector3.z w <> 0.

Definition aimInvariant (v : Viewer) : Prop :=
  (exists along : R, aimedAt v along)
  /\ offAxis (Vector3.sub (OrbitControls.position0 (controls v))
                          (OrbitControls.target0 (controls v))).

(** The two input modes as a state machine of their own: a shift-press of
    the primary button enters the dolly mode, any mouseup leaves it, nothing
    else changes the mode. *)
Inductive Mode : Type := Orbit | Dolly.

Definition modeStep (m : Mode) (e : Event) : Mode :=
  match e with
  | MouseDown button shiftKey _ =>
      if (button =? 0)%Z && shiftKey then Dolly else m
  | MouseUp _ _ => Orbit
  | _ => m
  end.

Definition modeOf (v : Viewer) : Mode :=
  if isShiftDragging v then Dolly else Orbit.

(** * Properties *)

(** One step of an induction over the events still to run. *)
Ltac next_event Hes He v e es :=
  cbn in Hes; apply andb_prop in Hes; destruct Hes as [He Hes];
  change (run v (e :: es)) with (run (step v e) es).

(** ** Arithmetic of the framing computation *)

Section Trigonometry.

Lemma lt_div (a b c : R) : 0 < b -> a * b < c -> a < c / b.
Proof.
  intros Hb H. apply (Rmult_lt_reg_r b); [exact Hb|].
  unfold Rdiv. rewrite Rmult_assoc, Rinv_l by lra. lra.
Qed.

Lemma div_lt (a b c : R) : 0 < b -> c < a * b -> c / b < a.
Proof.
  intros Hb H. apply (Rmult_lt_reg_r b); [exact Hb|].
  unfold Rdiv. rewrite Rmult_assoc, Rinv_l by lra. lra.
Qed.

Lemma sqrt2_bounds : 1.414 < sqrt 2 < 1.415.
Proof.
  assert (H0 : 0 <= sqrt 2) by apply sqrt_pos.
  assert (H1 : sqrt 2 * sqrt 2 = 2) by (apply sqrt_sqrt; lra).
  split; nra.
Qed.

Lemma sqrt3_bounds : 1.732 < sqrt 3 < 1.733.
Proof.
  assert (H0 : 0 <= sqrt 3) by apply sqrt_pos.
  assert (H1 : sqrt 3 * sqrt 3 = 3) by (apply sqrt_sqrt; lra).
  split; nra.
Qed.

Lemma cos_sin_angle : cos angle * cos angle + sin angle * sin angle = 1.
Proof.
  generalize (sin2_cos2 angle). unfold Rsqr. lra.
Qed.

Lemma cos_angle_pos : 0 < cos angle.
Proof.
  unfold angle. rewrite cos_PI4.
  generalize sqrt2_bounds. intros [H _].
  apply Rdiv_lt_0_compat; lra.
Qed.

Lemma sin_angle_cos_angle : sin angle = cos angle.
Proof. unfold angle. apply sin_cos_PI4. Qed.

(** The half-angle formula, used to evaluate [tan] at 37.5 degrees. *)
Lemma tan_half (a : R) :
  0 < cos (a / 2) -> tan (a / 2) = sin a / (1 + cos a).
Proof.
  intros Hc.
  replace a with (2 * (a / 2)) at 2 3 by field.
  rewrite sin_2a, cos_2a_cos. unfold tan. field.
  assert (0 < cos (a / 2) * cos (a / 2)) by nra.
  split; lra.
Qed.

Lemma half_fov_range (fovDegrees : R) :
  0 < fovDegrees < 180 -> 0 < fovRadians fovDegrees / 2 < PI / 2.
Proof.
  intros [H0 H1]. unfold fovRadians.
  generalize PI_RGT_0. intros HP. split; nra.
Qed.

Lemma tan_half_fov_pos (fovDegrees : R) :
  0 < fovDegrees < 180 -> 0 < tan (fovRadians fovDegrees / 2).
Proof.
  intros H. destruct (half_fov_range fovDegrees H). now apply tan_gt_0.
Qed.

Lemma tan_half_75 :
  tan (fovRadians 75 / 2) = (sqrt 3 + 1) / (2 * sqrt 2 + sqrt 3 - 1).
Proof.
  generalize sqrt2_bounds sqrt3_bounds PI_RGT_0. intros H2 H3 HP.
  replace (fovRadians 75 / 2) with ((PI / 4 + PI / 6) / 2)
    by (unfold fovRadians; field).
  rewrite tan_half.
  - rewrite sin_plus, cos_plus, sin_PI4, cos_PI4, sin_PI6, cos_PI6.
    field. split; lra.
  - apply cos_gt_0; lra.
Qed.

Lemma sin_polar_pos : 0 < sin (PI / 3).
Proof.
  rewrite sin_PI3. generalize sqrt3_bounds. lra.
Qed.

End Trigonometry.

(** ** The framing solver *)

Section Framing.

Lemma maxDim_cube (a : R) : maxDim (Vector3.mk a a a) = a.
Proof.
  unfold maxDim. cbn [Vector3.x Vector3.y Vector3.z].
  rewrite (Rmax_left a a) by lra. apply Rmax_left. lra.
Qed.

Lemma frameDistance_pos (size : Vector3.t) (fovDegrees : R) :
  0 < maxDim size -> 0 < fovDegrees < 180 ->
  0 < frameDistance size fovDegrees.
Proof.
  intros Hm Hf. unfold frameDistance.
  pose proof (tan_half_fov_pos fovDegrees Hf) as Ht.
  apply Rmult_lt_0_compat; [apply Rdiv_lt_0_compat|]; lra.
Qed.

Lemma distanceTo_zero (p : Vector3.t) :
  Vector3.distanceTo p Vector3.zero = Vector3.length p.
Proof.
  unfold Vector3.distanceTo, Vector3.length, Vector3.lengthSq. simpl.
  f_equal. ring.
Qed.

Lemma lengthSq_framePosition (d : R) :
  Vector3.lengthSq (framePosition d) = 0.1924 * (d * d).
Proof.
  unfold Vector3.lengthSq, framePosition, zoomMultiplier, heightMultiplier.
  cbn [Vector3.x Vector3.y Vector3.z].
  replace (0.1924 * (d * d))
    with (d * d * (0.0324 * (cos angle * cos angle + sin angle * sin angle)
                   + 0.16))
    by (rewrite cos_sin_angle; lra).
  lra.
Qed.

Lemma length_framePosition (d : R) :
  0 <= d -> Vector3.length (framePosition d) = sqrt 0.1924 * d.
Proof.
  intros Hd. unfold Vector3.length. rewrite lengthSq_framePosition.
  rewrite sqrt_mult by nra. now rewrite sqrt_square.
Qed.

Lemma sqrt_ratio_bounds : 0.43 < sqrt 0.1924 < 0.44.
Proof.
  assert (H0 : 0 <= sqrt 0.1924) by apply sqrt_pos.
  assert (H1 : sqrt 0.1924 * sqrt 0.1924 = 0.1924) by (apply sqrt_sqrt; lra).
  split; nra.
Qed.

Lemma frameDistance_10_75 :
  7.81 < frameDistance (Vector3.mk 10 10 10) 75 < 7.83.
Proof.
  unfold frameDistance. rewrite maxDim_cube, tan_half_75.
  generalize sqrt2_bounds sqrt3_bounds. intros H2 H3.
  replace 1.2 with (12 / 10) by lra.
  replace (10 / (2 * ((sqrt 3 + 1) / (2 * sqrt 2 + sqrt 3 - 1))) * (12 / 10))
    with (6 * (2 * sqrt 2 + sqrt 3 - 1) / (sqrt 3 + 1))
    by (field; split; lra).
  split.
  - apply lt_div; lra.
  - apply div_lt; lra.
Qed.

(** C1, as amended: for every bounding volume with maxDim > 0 and every
    field of view in (0, 180) degrees, the position that framing gives the
    camera lies at sqrt(0.18^2 + 0.4^2) = sqrt 0.1924 times the framing
    distance from the target (the origin), that is within [0.43, 0.44]
    times the framing distance. *)
Theorem frame_position_distance (size : Vector3.t) (fovDegrees : R) :
  0 < maxDim size -> 0 < fovDegrees < 180 ->
  let d := frameDistance size fovDegrees in
  let r := Vector3.distanceTo (framePosition d) Vector3.zero in
  r = sqrt 0.1924 * d /\ 0.43 * d <= r <= 0.44 * d.
Proof.
  intros Hm Hf d r.
  assert (Hd : 0 < d) by now apply frameDistance_pos.
  assert (Hr : r = sqrt 0.1924 * d).
  { unfold r. rewrite distanceTo_zero. apply length_framePosition. lra. }
  generalize sqrt_ratio_bounds. intros [Hlo Hhi].
  split; [exact Hr|]. rewrite Hr. split; nra.
Qed.

Lemma frame_position_distance_witness :
  let size := Vector3.mk 10 10 10 in
  let d := frameDistance size 75 in
  let r := Vector3.distanceTo (framePosition d) Vector3.zero in
  r = sqrt 0.1924 * d /\ 0.43 * d <= r <= 0.44 * d.
Proof.
  apply (frame_position_distance (Vector3.mk 10 10 10) 75).
  - rewrite maxDim_cube. lra.
  - lra.
Defined.

(** C3, as amended: for the bounding-volume size (10, 10, 10) and a field of
    view of 75 degrees the framing distance is 10 / (2 tan 37.5 deg) * 1.2,
    which is about 7.82 (between 7.81 and 7.83); minDistance is 1,
    maxDistance 50, near 0.1 and far 1000. *)
Theorem frame_scenario :
  let size := Vector3.mk 10 10 10 in
  7.81 < frameDistance size 75 < 7.83 /\
  approx 0.01 (frameDistance size 75) 7.82 /\
  frameMinDistance size = 1 /\ frameMaxDistance size = 50 /\
  frameNear size = 0.1 /\ frameFar size = 1000.
Proof.
  intros size. subst size. generalize frameDistance_10_75. intros H.
  unfold approx, frameMinDistance, frameMaxDistance, frameNear, frameFar.
  rewrite maxDim_cube.
  split; [exact H|]. split; [apply Rabs_le; lra|].
  repeat split; lra.
Qed.

(** C3, as stated, fails: the framing distance of the scenario is below
    7.83, more than 7 away from the claimed 15.5. *)
Lemma frame_scenario_distance_not_15_5 :
  let size := Vector3.mk 10 10 10 in
  frameDistance size 75 < 7.83 /\ ~ approx 7 (frameDistance size 75) 15.5.
Proof.
  intros size. subst size. generalize frameDistance_10_75. intros [_ H].
  split; [exact H|]. unfold approx, Rabs. intros Ha.
  destruct (Rcase_abs (frameDistance (Vector3.mk 10 10 10) 75 - 15.5)); lra.
Qed.

End Framing.

(** ** Unit vectors and [lookAt] *)

Section Orientation.

Lemma lengthSq_nonneg (a : Vector3.t) : 0 <= Vector3.lengthSq a.
Proof. unfold Vector3.lengthSq. nra. Qed.

Lemma lengthSq_zero (a : Vector3.t) :
  Vector3.lengthSq a = 0 ->
  Vector3.x a = 0 /\ Vector3.y a = 0 /\ Vector3.z a = 0.
Proof. unfold Vector3.lengthSq. intros H. repeat split; nra. Qed.

Lemma length_negate (a : Vector3.t) :
  Vector3.length (Vector3.negate a) = Vector3.length a.
Proof.
  unfold Vector3.length, Vector3.lengthSq, Vector3.negate.
  cbn [Vector3.x Vector3.y Vector3.z]. f_equal. ring.
Qed.

Lemma normalize_unit (a : Vector3.t) :
  Vector3.lengthSq a <> 0 -> Vector3.length (Vector3.normalize a) = 1.
Proof.
  intros Hne.
  assert (Hpos : 0 < Vector3.lengthSq a)
    by (generalize (lengthSq_nonneg a); lra).
  assert (HL : 0 < Vector3.length a) by now apply sqrt_lt_R0.
  assert (HLL : Vector3.length a * Vector3.length a = Vector3.lengthSq a)
    by (apply sqrt_sqrt; lra).
  unfold Vector3.normalize.
  destruct (Req_dec_T (Vector3.length a) 0) as [H0|_]; [lra|].
  set (L := Vector3.length a) in *.
  unfold Vector3.length at 1.
  replace (Vector3.lengthSq (Vector3.divideScalar a L)) with 1;
    [apply sqrt_1|].
  unfold Vector3.divideScalar, Vector3.multiplyScalar.
  unfold Vector3.lengthSq at 1. cbn [Vector3.x Vector3.y Vector3.z].
  transitivity (Vector3.lengthSq a * (1 / L * (1 / L)));
    [|unfold Vector3.lengthSq; ring].
  rewrite <- HLL. field. lra.
Qed.

Lemma lookAtZ_unit (eye target : Vector3.t) :
  Vector3.length (lookAtZ eye target) = 1.
Proof.
  unfold lookAtZ.
  set (d := Vector3.sub eye target).
  set (z0 := if Req_dec_T (Vector3.lengthSq d) 0
             then Vector3.mk (Vector3.x d) (Vector3.y d) 1 else d).
  assert (Hz0 : Vector3.lengthSq z0 <> 0).
  { unfold z0. destruct (Req_dec_T (Vector3.lengthSq d) 0) as [H0|H0];
      [|exact H0].
    destruct (lengthSq_zero d H0) as [Hx [Hy _]].
    unfold Vector3.lengthSq. cbn [Vector3.x Vector3.y Vector3.z].
    rewrite Hx, Hy. lra. }
  destruct (Req_dec_T (Vector3.lengthSq (Vector3.cross up (Vector3.normalize z0))) 0)
    as [Hc|Hc].
  - apply normalize_unit.
    apply lengthSq_zero in Hc. destruct Hc as [Hc _].
    unfold Vector3.cross, up in Hc. cbn [Vector3.x Vector3.y Vector3.z] in Hc.
    unfold Vector3.lengthSq. cbn [Vector3.x Vector3.y Vector3.z].
    assert (Hz : Vector3.z (Vector3.normalize z0) = 0) by lra.
    rewrite Hz. nra.
  - now apply normalize_unit.
Qed.

Lemma lookAt_unit (c : Camera.t) (target : Vector3.t) :
  Vector3.length (Camera.direction (Camera.lookAt c target)) = 1.
Proof.
  unfold Camera.lookAt. cbn [Camera.direction].
  rewrite length_negate. apply lookAtZ_unit.
Qed.

End Orientation.

(** ** The two input modes *)

Section Modes.


Lemma update_enabled (o : OrbitControls.t) (c : Camera.t) :
  OrbitControls.enabled (fst (OrbitControls.update o c))
  = OrbitControls.enabled o.
Proof. reflexivity. Qed.

Lemma tick_applies_update (v : Viewer) : step v Tick = orbitEffect Tick v.
Proof. reflexivity. Qed.

Lemma update_direction (o : OrbitControls.t) (c : Camera.t) :
  Vector3.length (Camera.direction c) = 1 ->
  Vector3.length (Camera.direction (snd (OrbitControls.update o c))) = 1.
Proof. intros _. apply lookAt_unit. Qed.

Lemma onLoad_direction (box : Box3.t) (v : Viewer) : unitDirection (onLoad box v).
Proof.
  unfold unitDirection, onLoad, Camera.getWorldDirection.
  match goal with
  | |- context [OrbitControls.update ?o ?c] =>
      pose proof (update_direction o c) as H;
      destruct (OrbitControls.update o c) as [o3 c4]
  end.
  cbn [camera snd] in *. apply H.
  unfold Camera.setClipping. cbn [Camera.direction].
  apply lookAt_unit.
Qed.

Lemma step_modeInvariant (v : Viewer) (e : Event) :
  modeInvariant v -> modeInvariant (step v e).
Proof.
  unfold modeInvariant. intros H.
  destruct e; cbn [step]; try exact H.
  - unfold onMouseDown. destruct ((button =? 0)%Z && shiftKey); [reflexivity | exact H].
  - unfold onMouseUp. destruct (isShiftDragging v) eqn:E; [reflexivity|].
    rewrite H, E. reflexivity.
  - unfold onMouseMove. destruct (isShiftDragging v) eqn:E; cbn; rewrite H, ?E; reflexivity.
  - unfold onOrbitDrag, OrbitControls.rotate. cbn.
    destruct (OrbitControls.enabled (controls v)) eqn:E; cbn; congruence.
  - unfold onWheel, OrbitControls.zoom. cbn.
    destruct (OrbitControls.enabled (controls v)) eqn:E; cbn; congruence.
Qed.

Lemma step_unitDirection (v : Viewer) (e : Event) :
  unitDirection v -> unitDirection (step v e).
Proof.
  unfold unitDirection, Camera.getWorldDirection. intros H.
  destruct e; cbn [step]; try exact H.
  - unfold onMouseDown. destruct ((button =? 0)%Z && shiftKey); exact H.
  - unfold onMouseUp. destruct (isShiftDragging v); exact H.
  - unfold onMouseMove. destruct (isShiftDragging v); exact H.
  - unfold animate.
    pose proof (update_direction (controls v) (camera v) H) as Hu.
    destruct (OrbitControls.update (controls v) (camera v)) as [o c].
    exact Hu.
  - unfold onResetClick, OrbitControls.reset. cbn [camera]. apply lookAt_unit.
  - apply onLoad_direction.
Qed.

Lemma constructed_unitDirection (w h : R) : unitDirection (constructed w h).
Proof.
  unfold unitDirection, Camera.getWorldDirection, constructed, Vector3.length,
    Vector3.lengthSq.
  cbn [camera Camera.direction Vector3.x Vector3.y Vector3.z].
  replace (0 * 0 + 0 * 0 + -1 * -1) with 1 by ring. apply sqrt_1.
Qed.

Lemma initial_modeInvariant (w h : R) : modeInvariant (initial w h).
Proof.
  apply (step_modeInvariant (constructed w h) Tick). reflexivity.
Qed.

Lemma initial_unitDirection (w h : R) : unitDirection (initial w h).
Proof.
  apply (step_unitDirection (constructed w h) Tick).
  apply constructed_unitDirection.
Qed.

Lemma run_invariant (P : Viewer -> Prop) :
  (forall v e, P v -> P (step v e)) ->
  forall es v, P v -> P (run v es).
Proof.
  intros Hstep es. induction es as [|e es IH]; intros v Hv; [exact Hv|].
  apply IH, Hstep, Hv.
Qed.

Lemma run_app (v : Viewer) (es1 es2 : list Event) :
  run v (es1 ++ es2) = run (run v es1) es2.
Proof. apply fold_left_app. Qed.

Lemma reachable_modeInvariant (w h : R) (es : list Event) :
  modeInvariant (run (initial w h) es).
Proof.
  apply run_invariant; [apply step_modeInvariant | apply initial_modeInvariant].
Qed.

Lemma reachable_unitDirection (w h : R) (es : list Event) :
  unitDirection (run (initial w h) es).
Proof.
  apply run_invariant; [apply step_unitDirection | apply initial_unitDirection].
Qed.

(** C8: after every sequence of input events from the initial state, orbit
    input is enabled if and only if no modifier-drag is in progress
    ([isShiftDragging] is false): the two modes are never both active and
    never both inactive. *)
Theorem exactly_one_mode (innerWidth innerHeight : R) (es : list Event) :
  let v := run (initial innerWidth innerHeight) es in
  (OrbitControls.enabled (controls v) = true <-> isShiftDragging v = false)
  /\ OrbitControls.enabled (controls v) = negb (isShiftDragging v)
  /\ OrbitControls.enabled (controls v) && isShiftDragging v = false
  /\ OrbitControls.enabled (controls v) || isShiftDragging v = true.
Proof.
  intros v. pose proof (reachable_modeInvariant innerWidth innerHeight es) as H.
  fold v in H. unfold modeInvariant in H. rewrite H.
  destruct (isShiftDragging v); cbn; intuition congruence.
Qed.

End Modes.

(** ** The modifier-drag gesture *)

Section Gesture.

Lemma step_keeps_dragging (v : Viewer) (e : Event) :
  isMouseUp e = false -> isShiftDragging v = true ->
  isShiftDragging (step v e) = true.
Proof.
  intros He Hd. destruct e; cbn [step]; try exact Hd; try discriminate.
  - unfold onMouseDown. destruct ((button =? 0)%Z && shiftKey); [reflexivity | exact Hd].
  - unfold onMouseMove. rewrite Hd. reflexivity.
Qed.


Lemma run_keeps_dragging (es : list Event) (v : Viewer) :
  forallb notMouseUp es = true -> isShiftDragging v = true ->
  isShiftDragging (run v es) = true.
Proof.
  revert v. induction es as [|e es IH]; intros v Hes Hd; [exact Hd|].
  next_event Hes He v e es.
  apply IH; [exact Hes|]. apply step_keeps_dragging; [|exact Hd].
  unfold notMouseUp in He. now destruct (isMouseUp e).
Qed.


Lemma orbit_input_applied (v : Viewer) (e : Event) :
  OrbitControls.enabled (controls v) = true -> isOrbitInput e = true ->
  step v e = orbitEffect e v.
Proof.
  intros Hen He. destruct e; try discriminate; cbn [step orbitEffect].
  - unfold onOrbitDrag, OrbitControls.rotate. now rewrite Hen.
  - unfold onWheel, OrbitControls.zoom. now rewrite Hen.
  - reflexivity.
Qed.



Lemma mouseUp_ends_gesture (v : Viewer) (button : Z) (shiftKey : bool) :
  isShiftDragging v = true ->
  isShiftDragging (step v (MouseUp button shiftKey)) = false
  /\ OrbitControls.enabled (controls (step v (MouseUp button shiftKey))) = true.
Proof.
  intros Hd. cbn [step]. unfold onMouseUp. rewrite Hd. split; reflexivity.
Qed.

End Gesture.

Section Dolly.

Lemma length_multiplyScalar (d : Vector3.t) (s : R) :
  Vector3.length (Vector3.multiplyScalar d s) = Rabs s * Vector3.length d.
Proof.
  unfold Vector3.length.
  replace (Vector3.lengthSq (Vector3.multiplyScalar d s))
    with (Rsqr s * Vector3.lengthSq d)
    by (unfold Vector3.lengthSq, Vector3.multiplyScalar, Rsqr;
        cbn [Vector3.x Vector3.y Vector3.z]; ring).
  rewrite sqrt_mult; [|apply Rle_0_sqr|apply lengthSq_nonneg].
  now rewrite sqrt_Rsqr_abs.
Qed.

Lemma addScaledVector_displacement (p d : Vector3.t) (s : R) :
  Vector3.sub (Vector3.addScaledVector p d s) p = Vector3.multiplyScalar d s.
Proof.
  unfold Vector3.sub, Vector3.addScaledVector, Vector3.multiplyScalar.
  cbn [Vector3.x Vector3.y Vector3.z]. f_equal; ring.
Qed.

Lemma unit_lengthSq (d : Vector3.t) :
  Vector3.length d = 1 -> Vector3.lengthSq d = 1.
Proof.
  unfold Vector3.length. intros H.
  rewrite <- (sqrt_sqrt (Vector3.lengthSq d)) by apply lengthSq_nonneg.
  rewrite H. ring.
Qed.

Lemma dot_multiplyScalar (d : Vector3.t) (s : R) :
  Vector3.dot (Vector3.multiplyScalar d s) d = s * Vector3.lengthSq d.
Proof.
  unfold Vector3.dot, Vector3.multiplyScalar, Vector3.lengthSq.
  cbn [Vector3.x Vector3.y Vector3.z]. ring.
Qed.

Lemma onMouseMove_dragging (v : Viewer) (clientY : R) :
  isShiftDragging v = true ->
  Camera.position (camera (onMouseMove clientY v))
  = Vector3.addScaledVector (Camera.position (camera v))
      (Camera.getWorldDirection (camera v))
      (- (clientY - previousY v) * zoomSpeed)
  /\ previousY (onMouseMove clientY v) = clientY
  /\ isShiftDragging (onMouseMove clientY v) = true
  /\ controls (onMouseMove clientY v) = controls v.
Proof.
  intros Hd. unfold onMouseMove. rewrite Hd. cbn. auto.
Qed.

End Dolly.

(** C4: for every pointer move processed while the modifier-drag gesture is
    active, with recorded coordinate lastY and current coordinate currentY,
    the camera position is translated along the camera's forward unit vector
    by exactly -(currentY - lastY) * zoomSpeed, with zoomSpeed = 0.5, and
    lastY becomes currentY; a deltaY of -40 moves the camera 20 units
    forward and a deltaY of +40 moves it 20 units backward. *)
Theorem dolly_translation (innerWidth innerHeight : R) (es : list Event)
    (shiftKey : bool) (currentY : R) :
  let v := run (initial innerWidth innerHeight) es in
  isShiftDragging v = true ->
  let lastY := previousY v in
  let forward := Camera.getWorldDirection (camera v) in
  let p := Camera.position (camera v) in
  let v' := step v (MouseMove shiftKey currentY) in
  let p' := Camera.position (camera v') in
  Vector3.length forward = 1
  /\ zoomSpeed = 0.5
  /\ p' = Vector3.addScaledVector p forward (- (currentY - lastY) * zoomSpeed)
  /\ previousY v' = currentY
  /\ Vector3.dot (Vector3.sub p' p) forward = - (currentY - lastY) * zoomSpeed
  /\ Vector3.distanceTo p' p = Rabs (currentY - lastY) * zoomSpeed
  /\ (currentY - lastY = -40 -> p' = Vector3.addScaledVector p forward 20)
  /\ (currentY - lastY = 40 -> p' = Vector3.addScaledVector p forward (-20)).
Proof.
  intros v Hd lastY forward p v' p'.
  pose proof (reachable_unitDirection innerWidth innerHeight es) as Hu.
  fold v in Hu. unfold unitDirection in Hu. fold forward in Hu.
  destruct (onMouseMove_dragging v currentY Hd) as [Hp [Hy _]].
  fold forward p lastY in Hp.
  change (onMouseMove currentY v) with v' in Hp, Hy. fold p' in Hp.
  split; [exact Hu|]. split; [reflexivity|]. split; [exact Hp|].
  split; [exact Hy|].
  assert (Hs : Vector3.sub p' p
               = Vector3.multiplyScalar forward (- (currentY - lastY) * zoomSpeed))
    by (rewrite Hp; apply addScaledVector_displacement).
  split; [|split; [|split]].
  - rewrite Hs, dot_multiplyScalar, (unit_lengthSq forward Hu). ring.
  - unfold Vector3.distanceTo. rewrite Hs, length_multiplyScalar, Hu.
    unfold zoomSpeed.
    replace (- (currentY - lastY) * 0.5) with (- ((currentY - lastY) * 0.5))
      by lra.
    rewrite Rabs_Ropp, Rabs_mult, (Rabs_right 0.5) by lra. ring.
  - intros Hdelta. rewrite Hp. f_equal. rewrite Hdelta. unfold zoomSpeed. lra.
  - intros Hdelta. rewrite Hp. f_equal. rewrite Hdelta. unfold zoomSpeed. lra.
Qed.

Lemma dolly_translation_witness :
  let v := run (initial 1920 1080) [MouseDown 0 true 300] in
  let forward := Camera.getWorldDirection (camera v) in
  let p := Camera.position (camera v) in
  let v' := step v (MouseMove true 260) in
  let p' := Camera.position (camera v') in
  Vector3.length forward = 1
  /\ zoomSpeed = 0.5
  /\ p' = Vector3.addScaledVector p forward (- (260 - previousY v) * zoomSpeed)
  /\ previousY v' = 260
  /\ Vector3.dot (Vector3.sub p' p) forward = - (260 - previousY v) * zoomSpeed
  /\ Vector3.distanceTo p' p = Rabs (260 - previousY v) * zoomSpeed
  /\ (260 - previousY v = -40 -> p' = Vector3.addScaledVector p forward 20)
  /\ (260 - previousY v = 40 -> p' = Vector3.addScaledVector p forward (-20)).
Proof.
  apply (dolly_translation 1920 1080 [MouseDown 0 true 300] true 260).
  reflexivity.
Defined.



(** C10: while a modifier-drag gesture is active, any mouseup ends it and
    re-enables orbit, whichever button is released and whether or not the
    modifier key is still held; releasing the modifier key alone does not
    end it: the gesture stays active through every event that is not a
    mouseup, and pointer moves go on translating the camera. *)
Theorem only_mouseup_ends_dolly (v : Viewer) :
  isShiftDragging v = true ->
  (forall (button : Z) (shiftKey : bool),
      isShiftDragging (step v (MouseUp button shiftKey)) = false
      /\ OrbitControls.enabled (controls (step v (MouseUp button shiftKey)))
         = true)
  /\ step v KeyUp = v
  /\ (forall es : list Event,
      forallb notMouseUp es = true -> isShiftDragging (run v es) = true)
  /\ (forall (es : list Event) (clientY : R),
      forallb notMouseUp es = true ->
      let v1 := run v (KeyUp :: es) in
      let v2 := step v1 (MouseMove false clientY) in
      isShiftDragging v2 = true
      /\ Camera.position (camera v2)
         = Vector3.addScaledVector (Camera.position (camera v1))
             (Camera.getWorldDirection (camera v1))
             (- (clientY - previousY v1) * zoomSpeed)).
Proof.
  intros Hd. split; [|split; [|split]].
  - intros button shiftKey. now apply mouseUp_ends_gesture.
  - reflexivity.
  - intros es Hes. now apply run_keeps_dragging.
  - intros es clientY Hes v1 v2.
    assert (Hd1 : isShiftDragging v1 = true)
      by (apply run_keeps_dragging; [exact Hes | exact Hd]).
    destruct (onMouseMove_dragging v1 clientY Hd1) as [Hp [_ [Hd2 _]]].
    split; [exact Hd2 | exact Hp].
Qed.

Lemma only_mouseup_ends_dolly_witness :
  let v := step (initial 1920 1080) (MouseDown 0 true 300) in
  (forall (button : Z) (shiftKey : bool),
      isShiftDragging (step v (MouseUp button shiftKey)) = false
      /\ OrbitControls.enabled (controls (step v (MouseUp button shiftKey)))
         = true)
  /\ step v KeyUp = v
  /\ (forall es : list Event,
      forallb notMouseUp es = true -> isShiftDragging (run v es) = true)
  /\ (forall (es : list Event) (clientY : R),
      forallb notMouseUp es = true ->
      let v1 := run v (KeyUp :: es) in
      let v2 := step v1 (MouseMove false clientY) in
      isShiftDragging v2 = true
      /\ Camera.position (camera v2)
         = Vector3.addScaledVector (Camera.position (camera v1))
             (Camera.getWorldDirection (camera v1))
             (- (clientY - previousY v1) * zoomSpeed)).
Proof.
  apply (only_mouseup_ends_dolly (step (initial 1920 1080) (MouseDown 0 true 300))).
  reflexivity.
Defined.

(** ** The orbit controller's limits *)

Section OrbitLimits.

Lemma clamp_bounds (lo hi x : R) : lo <= hi -> lo <= clamp lo hi x <= hi.
Proof.
  intros H. unfold clamp, Rmax, Rmin.
  destruct (Rle_dec hi x); destruct (Rle_dec lo _); lra.
Qed.

Lemma clamp_same (a x : R) : clamp a a x = a.
Proof.
  generalize (clamp_bounds a a x). lra.
Qed.

Lemma clamp_le (lo hi x : R) : lo <= hi -> clamp lo hi x <= hi.
Proof. intros H. now apply clamp_bounds. Qed.

Lemma azimuth_limits : minAzimuthAngle <= maxAzimuthAngle.
Proof.
  unfold minAzimuthAngle, maxAzimuthAngle. generalize PI_RGT_0. lra.
Qed.

Lemma applyUpdate_invariant (v : Viewer) :
  orbitInvariant (orbitEffect Tick v).
Proof.
  unfold orbitInvariant, orbitEffect, OrbitControls.applyUpdate.
  cbn [controls camera OrbitControls.spherical OrbitControls.target
       Spherical.theta Spherical.phi Camera.position Camera.lookAt
       Camera.setPosition].
  split; [apply clamp_bounds, azimuth_limits|].
  split; [apply clamp_same | reflexivity].
Qed.

Lemma orbit_input_keeps_enabled (v : Viewer) (e : Event) :
  isOrbitInput e = true ->
  OrbitControls.enabled (controls (step v e)) = OrbitControls.enabled (controls v).
Proof.
  intros He. destruct e; try discriminate; cbn [step].
  - unfold onOrbitDrag, OrbitControls.rotate. cbn.
    destruct (OrbitControls.enabled (controls v)) eqn:E; cbn; congruence.
  - unfold onWheel, OrbitControls.zoom. cbn.
    destruct (OrbitControls.enabled (controls v)) eqn:E; cbn; congruence.
  - unfold animate.
    pose proof (update_enabled (controls v) (camera v)) as Hu.
    destruct (OrbitControls.update (controls v) (camera v)). exact Hu.
Qed.

Lemma orbit_input_keeps_invariant (v : Viewer) (e : Event) :
  OrbitControls.enabled (controls v) = true -> isOrbitInput e = true ->
  orbitInvariant v -> orbitInvariant (step v e).
Proof.
  intros Hen He Hinv. rewrite orbit_input_applied by assumption.
  destruct e; try discriminate.
  - exact Hinv.
  - exact Hinv.
  - apply applyUpdate_invariant.
Qed.

Lemma run_orbit_inputs_enabled (es : list Event) (v : Viewer) :
  forallb isOrbitInput es = true ->
  OrbitControls.enabled (controls (run v es)) = OrbitControls.enabled (controls v).
Proof.
  revert v. induction es as [|e es IH]; intros v Hes; [reflexivity|].
  next_event Hes He v e es.
  rewrite IH by exact Hes. now apply orbit_input_keeps_enabled.
Qed.

Lemma run_orbit_inputs_invariant (es : list Event) (v : Viewer) :
  forallb isOrbitInput es = true ->
  OrbitControls.enabled (controls v) = true ->
  orbitInvariant v -> orbitInvariant (run v es).
Proof.
  revert v. induction es as [|e es IH]; intros v Hes Hen Hinv; [exact Hinv|].
  next_event Hes He v e es.
  apply IH; [exact Hes | | now apply orbit_input_keeps_invariant].
  now rewrite orbit_input_keeps_enabled.
Qed.

End OrbitLimits.

Lemma orbitInvariant_explicit (v : Viewer) :
  orbitInvariant v ->
  let s := OrbitControls.spherical (controls v) in
  - (PI / 4) <= Spherical.theta s <= PI / 4
  /\ Spherical.phi s = PI / 3
  /\ Camera.position (camera v)
     = Vector3.add (OrbitControls.target (controls v)) (Spherical.toVector3 s).
Proof.
  intros [Ht [Hp Hpos]] s. fold s in Ht, Hp, Hpos.
  unfold minAzimuthAngle, maxAzimuthAngle in Ht.
  repeat split; try assumption; lra.
Qed.

Lemma initial_orbitInvariant (w h : R) : orbitInvariant (initial w h).
Proof.
  change (initial w h) with (step (constructed w h) Tick).
  rewrite orbit_input_applied by reflexivity. apply applyUpdate_invariant.
Qed.

(** C6: after every sequence of orbit-mode input from the initial state,
    and from any state after every sequence of orbit-mode input that
    contains an update, the camera sits, relative to the pivot, at an
    azimuth within [-pi/4, pi/4] and at a polar angle of exactly pi/3. *)
Theorem orbit_angles_within_limits :
  (forall (innerWidth innerHeight : R) (es : list Event),
      forallb isOrbitInput es = true ->
      let v' := run (initial innerWidth innerHeight) es in
      let s := OrbitControls.spherical (controls v') in
      - (PI / 4) <= Spherical.theta s <= PI / 4
      /\ Spherical.phi s = PI / 3
      /\ Camera.position (camera v')
         = Vector3.add (OrbitControls.target (controls v'))
                       (Spherical.toVector3 s))
  /\ (forall (v : Viewer) (es1 es2 : list Event),
      OrbitControls.enabled (controls v) = true ->
      forallb isOrbitInput es1 = true -> forallb isOrbitInput es2 = true ->
      let v' := run v (es1 ++ Tick :: es2) in
      let s := OrbitControls.spherical (controls v') in
      - (PI / 4) <= Spherical.theta s <= PI / 4
      /\ Spherical.phi s = PI / 3
      /\ Camera.position (camera v')
         = Vector3.add (OrbitControls.target (controls v'))
                       (Spherical.toVector3 s)).
Proof.
  split.
  - intros w h es Hes. apply orbitInvariant_explicit.
    apply run_orbit_inputs_invariant;
      [exact Hes | reflexivity | apply initial_orbitInvariant].
  - intros v es1 es2 Hen H1 H2. apply orbitInvariant_explicit.
    rewrite run_app.
    change (run (run v es1) (Tick :: es2))
      with (run (step (run v es1) Tick) es2).
    assert (Hen1 : OrbitControls.enabled (controls (run v es1)) = true)
      by (rewrite run_orbit_inputs_enabled; assumption).
    apply run_orbit_inputs_invariant; [exact H2 | |].
    + now rewrite orbit_input_keeps_enabled.
    + rewrite orbit_input_applied by auto. apply applyUpdate_invariant.
Qed.

(** ** Loading, the baseline snapshot and reset *)

Section Baseline.

Lemma onLoad_installs (box : Box3.t) (v : Viewer) :
  let v' := onLoad box v in
  let size := Box3.getSize box in
  Camera.near (camera v') = frameNear size
  /\ Camera.far (camera v') = frameFar size
  /\ OrbitControls.target (controls v') = Vector3.zero
  /\ OrbitControls.minDistance (controls v') = frameMinDistance size
  /\ OrbitControls.maxDistance (controls v') = Some (frameMaxDistance size)
  /\ progressVisible v' = false
  /\ baseline v' = poseAndLimits v'.
Proof.
  unfold onLoad, OrbitControls.update, baseline, poseAndLimits.
  cbn. repeat split.
Qed.

Lemma onLoad_position (box : Box3.t) (v : Viewer) :
  Camera.position (camera (onLoad box v))
  = Vector3.add Vector3.zero
      (Spherical.toVector3 (OrbitControls.spherical (controls (onLoad box v)))).
Proof. reflexivity. Qed.

Lemma onLoad_radius (box : Box3.t) (v : Viewer) :
  exists r,
    Spherical.radius (OrbitControls.spherical (controls (onLoad box v)))
    = clamp (frameMinDistance (Box3.getSize box))
            (frameMaxDistance (Box3.getSize box)) r.
Proof.
  unfold onLoad, OrbitControls.update. cbn.
  unfold OrbitControls.clampDistance. cbn. eauto.
Qed.



End Baseline.

(** ** Degenerate geometry *)

Section Degenerate.

Lemma getSize_point (p : Vector3.t) :
  Box3.getSize (Box3.mk p p) = Vector3.zero.
Proof.
  unfold Box3.getSize, Box3.isEmpty. cbn [Box3.min Box3.max].
  destruct (Rlt_dec (Vector3.x p) (Vector3.x p)); [lra|].
  destruct (Rlt_dec (Vector3.y p) (Vector3.y p)); [lra|].
  destruct (Rlt_dec (Vector3.z p) (Vector3.z p)); [lra|].
  unfold Vector3.sub, Vector3.zero. f_equal; ring.
Qed.

Lemma maxDim_zero : maxDim Vector3.zero = 0.
Proof. apply (maxDim_cube 0). Qed.

Lemma maxDim_getSize_nonneg (box : Box3.t) : 0 <= maxDim (Box3.getSize box).
Proof.
  unfold Box3.getSize, Box3.isEmpty.
  destruct (Rlt_dec (Vector3.x (Box3.max box)) (Vector3.x (Box3.min box)));
    [rewrite maxDim_zero; lra|].
  destruct (Rlt_dec (Vector3.y (Box3.max box)) (Vector3.y (Box3.min box)));
    [rewrite maxDim_zero; lra|].
  destruct (Rlt_dec (Vector3.z (Box3.max box)) (Vector3.z (Box3.min box)));
    [rewrite maxDim_zero; lra|].
  unfold maxDim, Vector3.sub. cbn [Vector3.x Vector3.y Vector3.z].
  apply Rle_trans with (Vector3.z (Box3.max box) - Vector3.z (Box3.min box));
    [lra | apply Rmax_r].
Qed.

Lemma frameDistance_degenerate (size : Vector3.t) (fovDegrees : R) :
  maxDim size = 0 -> frameDistance size fovDegrees = 0.
Proof.
  intros H. unfold frameDistance. rewrite H. unfold Rdiv.
  rewrite Rmult_0_l. lra.
Qed.

Lemma framePosition_zero : framePosition 0 = Vector3.zero.
Proof.
  unfold framePosition, Vector3.zero. f_equal; lra.
Qed.

Lemma toVector3_radius_zero (s : Spherical.t) :
  Spherical.radius s = 0 ->
  Vector3.add Vector3.zero (Spherical.toVector3 s) = Vector3.zero.
Proof.
  intros H. unfold Spherical.toVector3, Vector3.add, Vector3.zero.
  cbn [Vector3.x Vector3.y Vector3.z]. rewrite H. f_equal; ring.
Qed.

Lemma onLoad_degenerate_position (box : Box3.t) (v : Viewer) :
  maxDim (Box3.getSize box) = 0 ->
  Camera.position (camera (onLoad box v)) = Vector3.zero.
Proof.
  intros H. rewrite onLoad_position. apply toVector3_radius_zero.
  destruct (onLoad_radius box v) as [r Hr]. rewrite Hr.
  unfold frameMinDistance, frameMaxDistance. rewrite H.
  replace (0 * 0.1) with 0 by lra. replace (0 * 5) with 0 by lra.
  apply clamp_same.
Qed.

End Degenerate.

(** C2, as amended: when the loaded object's bounding volume has
    maxDim = 0 the framing step does not detect it and completes as for any
    other load: the framing distance is 0, the camera is put on the target
    (the origin), near = far = 0 and minDistance = maxDistance = 0 are
    installed, that state is saved as the reset baseline and the loading
    indicator is hidden. *)
Theorem degenerate_box_is_framed (v : Viewer) (box : Box3.t) :
  maxDim (Box3.getSize box) = 0 ->
  let v' := step v (Loaded box) in
  frameDistance (Box3.getSize box) (Camera.fov (camera v)) = 0
  /\ Camera.position (camera v') = Vector3.zero
  /\ Camera.near (camera v') = 0
  /\ Camera.far (camera v') = 0
  /\ OrbitControls.target (controls v') = Vector3.zero
  /\ OrbitControls.minDistance (controls v') = 0
  /\ OrbitControls.maxDistance (controls v') = Some 0
  /\ baseline v' = (Vector3.zero, Vector3.zero, 0, Some 0)
  /\ progressVisible v' = false.
Proof.
  intros H v'. change v' with (onLoad box v).
  destruct (onLoad_installs box v) as [Hn [Hf [Ht [Hlo [Hhi [Hp Hb]]]]]].
  pose proof (onLoad_degenerate_position box v H) as Hpos.
  unfold frameNear in Hn. unfold frameFar in Hf.
  unfold frameMinDistance in Hlo. unfold frameMaxDistance in Hhi.
  rewrite H in Hn, Hf, Hlo, Hhi.
  replace (0 / 100) with 0 in Hn by lra.
  replace (0 * 100) with 0 in Hf by lra.
  replace (0 * 0.1) with 0 in Hlo by lra.
  replace (0 * 5) with 0 in Hhi by lra.
  split; [now apply frameDistance_degenerate|].
  repeat (split; [assumption|]).
  split; [|exact Hp].
  rewrite Hb. unfold poseAndLimits. now rewrite Hpos, Ht, Hlo, Hhi.
Qed.

Lemma degenerate_box_is_framed_witness :
  let box := Box3.mk Vector3.zero Vector3.zero in
  let v := initial 1920 1080 in
  let v' := step v (Loaded box) in
  frameDistance (Box3.getSize box) (Camera.fov (camera v)) = 0
  /\ Camera.position (camera v') = Vector3.zero
  /\ Camera.near (camera v') = 0
  /\ Camera.far (camera v') = 0
  /\ OrbitControls.target (controls v') = Vector3.zero
  /\ OrbitControls.minDistance (controls v') = 0
  /\ OrbitControls.maxDistance (controls v') = Some 0
  /\ baseline v' = (Vector3.zero, Vector3.zero, 0, Some 0)
  /\ progressVisible v' = false.
Proof.
  apply (degenerate_box_is_framed (initial 1920 1080)
           (Box3.mk Vector3.zero Vector3.zero)).
  rewrite getSize_point. apply maxDim_zero.
Defined.

(** C2, as stated, fails: loading a box of size zero into the initial
    viewer is not treated as a load failure.  Where the error callback
    leaves the camera's clipping range, the controller's limits and the
    loading indicator as they were, the load callback installs near = 0 and
    a distance range of [0, 0] and hides the indicator. *)
Lemma degenerate_box_not_rejected :
  let box := Box3.mk Vector3.zero Vector3.zero in
  let v := initial 1920 1080 in
  maxDim (Box3.getSize box) = 0
  /\ step v LoadError = v
  /\ Camera.near (camera (step v LoadError)) = 0.1
  /\ progressVisible (step v LoadError) = true
  /\ Camera.near (camera (step v (Loaded box))) = 0
  /\ OrbitControls.minDistance (controls (step v (Loaded box))) = 0
  /\ OrbitControls.maxDistance (controls (step v (Loaded box))) = Some 0
  /\ progressVisible (step v (Loaded box)) = false
  /\ step v (Loaded box) <> step v LoadError.
Proof.
  intros box v.
  assert (Hm : maxDim (Box3.getSize box) = 0)
    by (unfold box; rewrite getSize_point; apply maxDim_zero).
  destruct (onLoad_installs box v) as [Hn [_ [_ [Hlo [Hhi [Hp _]]]]]].
  change (onLoad box v) with (step v (Loaded box)) in Hn, Hlo, Hhi, Hp.
  unfold frameNear in Hn. unfold frameMinDistance in Hlo.
  unfold frameMaxDistance in Hhi. rewrite Hm in Hn, Hlo, Hhi.
  replace (0 / 100) with 0 in Hn by lra.
  replace (0 * 0.1) with 0 in Hlo by lra.
  replace (0 * 5) with 0 in Hhi by lra.
  repeat (split; [first [assumption | reflexivity]|]).
  intros Heq. rewrite Heq in Hp. discriminate Hp.
Qed.

(** ** The framed pose and the azimuth limit *)

Section FramedAzimuth.

Lemma atan2_diagonal (a : R) : 0 < a -> atan2 a a = PI / 4.
Proof.
  intros Ha. unfold atan2.
  destruct (total_order_T a 0) as [[Hlt|Heq]|Hgt]; try lra.
  replace (a / a) with 1 by (field; lra). apply atan_1.
Qed.

Lemma framePosition_x_z (d : R) :
  Vector3.z (framePosition d) = Vector3.x (framePosition d).
Proof.
  unfold framePosition. cbn [Vector3.x Vector3.z].
  now rewrite sin_angle_cos_angle.
Qed.

Lemma framePosition_x_pos (d : R) : 0 < d -> 0 < Vector3.x (framePosition d).
Proof.
  intros Hd. unfold framePosition, zoomMultiplier. cbn [Vector3.x].
  generalize cos_angle_pos. intros Hc. nra.
Qed.

Lemma tick_azimuth_le (v : Viewer) :
  Spherical.theta (OrbitControls.spherical (controls (step v Tick)))
  <= maxAzimuthAngle.
Proof. rewrite tick_applies_update. apply (applyUpdate_invariant v). Qed.

End FramedAzimuth.

(** C9, as amended: for a bounding volume with maxDim > 0 (and a field of
    view in (0, 180) degrees, as the script's 75) the pose produced by
    framing lies exactly on the azimuth clamp boundary: the azimuth of the
    framed position about the origin, atan2 of its x and z components, is
    pi/4, which is maxAzimuthAngle; hence no orbit update brings the azimuth
    above that of the framed pose, and orbiting can only go toward smaller
    azimuth. *)
Theorem framed_azimuth_at_limit (size : Vector3.t) (fovDegrees : R) :
  0 < maxDim size -> 0 < fovDegrees < 180 ->
  let p := framePosition (frameDistance size fovDegrees) in
  atan2 (Vector3.x p) (Vector3.z p) = PI / 4
  /\ Spherical.theta (Spherical.setFromVector3 (Vector3.sub p Vector3.zero))
     = maxAzimuthAngle
  /\ (forall v : Viewer,
      OrbitControls.enabled (controls v) = true ->
      Spherical.theta (OrbitControls.spherical (controls (step v Tick)))
      <= atan2 (Vector3.x p) (Vector3.z p)).
Proof.
  intros Hm Hf p.
  assert (Hd : 0 < frameDistance size fovDegrees) by now apply frameDistance_pos.
  assert (Hx : 0 < Vector3.x p) by now apply framePosition_x_pos.
  assert (Ha : atan2 (Vector3.x p) (Vector3.z p) = PI / 4).
  { unfold p. rewrite framePosition_x_z. now apply atan2_diagonal. }
  split; [exact Ha|]. split.
  - unfold Spherical.setFromVector3.
    destruct (Req_dec_T (Vector3.length (Vector3.sub p Vector3.zero)) 0)
      as [H0|_].
    + exfalso. change (Vector3.distanceTo p Vector3.zero = 0) in H0.
      rewrite distanceTo_zero in H0. unfold p in H0.
      rewrite length_framePosition in H0 by lra.
      generalize sqrt_ratio_bounds. intros [Hs _]. nra.
    + cbn [Spherical.theta]. unfold Vector3.sub, Vector3.zero.
      cbn [Vector3.x Vector3.z]. rewrite !Rminus_0_r. exact Ha.
  - intros v _. rewrite Ha. apply tick_azimuth_le.
Qed.

Lemma framed_azimuth_at_limit_witness :
  let p := framePosition (frameDistance (Vector3.mk 10 10 10) 75) in
  atan2 (Vector3.x p) (Vector3.z p) = PI / 4
  /\ Spherical.theta (Spherical.setFromVector3 (Vector3.sub p Vector3.zero))
     = maxAzimuthAngle
  /\ (forall v : Viewer,
      OrbitControls.enabled (controls v) = true ->
      Spherical.theta (OrbitControls.spherical (controls (step v Tick)))
      <= atan2 (Vector3.x p) (Vector3.z p)).
Proof.
  apply (framed_azimuth_at_limit (Vector3.mk 10 10 10) 75).
  - rewrite maxDim_cube. lra.
  - lra.
Defined.

Lemma atan2_origin : atan2 0 0 = 0.
Proof.
  unfold atan2.
  destruct (total_order_T 0 0) as [[Hlt|Heq]|Hgt]; lra.
Qed.

(** C9, as stated, fails for a bounding volume of size zero: framing puts
    the camera on the origin, whose azimuth is atan2(0, 0) = 0, inside the
    azimuth range and not on its boundary pi/4. *)
Lemma framed_azimuth_degenerate :
  let box := Box3.mk Vector3.zero Vector3.zero in
  let p := framePosition (frameDistance (Box3.getSize box) 75) in
  p = Vector3.zero
  /\ Camera.position (camera (step (initial 1920 1080) (Loaded box)))
     = Vector3.zero
  /\ atan2 (Vector3.x p) (Vector3.z p) = 0
  /\ Spherical.theta (Spherical.setFromVector3 (Vector3.sub p Vector3.zero)) = 0
  /\ atan2 (Vector3.x p) (Vector3.z p) <> maxAzimuthAngle.
Proof.
  intros box p.
  assert (Hm : maxDim (Box3.getSize box) = 0)
    by (unfold box; rewrite getSize_point; apply maxDim_zero).
  assert (Hp : p = Vector3.zero).
  { unfold p. rewrite frameDistance_degenerate by exact Hm.
    apply framePosition_zero. }
  split; [exact Hp|].
  split; [now apply (onLoad_degenerate_position box (initial 1920 1080))|].
  rewrite Hp. cbn [Vector3.zero Vector3.x Vector3.z].
  rewrite atan2_origin. split; [reflexivity|]. split.
  - unfold Spherical.setFromVector3.
    destruct (Req_dec_T _ 0) as [_|Hne]; [reflexivity|].
    cbn [Spherical.theta]. unfold Vector3.sub, Vector3.zero.
    cbn [Vector3.x Vector3.z]. rewrite !Rminus_0_r. apply atan2_origin.
  - unfold maxAzimuthAngle. generalize PI_RGT_0. lra.
Qed.

(** ** The framed camera after the controller's first update *)

Section FramedDistance.

Lemma clamp_inside (lo hi x : R) : lo <= x <= hi -> clamp lo hi x = x.
Proof.
  intros [H1 H2]. unfold clamp, Rmax, Rmin.
  destruct (Rle_dec hi x); destruct (Rle_dec lo _); lra.
Qed.

Lemma length_toVector3 (s : Spherical.t) :
  0 <= Spherical.radius s ->
  Vector3.length (Spherical.toVector3 s) = Spherical.radius s.
Proof.
  intros Hr. unfold Vector3.length.
  replace (Vector3.lengthSq (Spherical.toVector3 s))
    with (Spherical.radius s * Spherical.radius s);
    [now apply sqrt_square|].
  unfold Vector3.lengthSq, Spherical.toVector3.
  cbn [Vector3.x Vector3.y Vector3.z].
  generalize (sin2_cos2 (Spherical.theta s)) (sin2_cos2 (Spherical.phi s)).
  unfold Rsqr. intros Ht Hp.
  set (r := Spherical.radius s).
  set (st := sin (Spherical.theta s)) in *.
  set (ct := cos (Spherical.theta s)) in *.
  set (sp := sin (Spherical.phi s)) in *.
  set (cp := cos (Spherical.phi s)) in *.
  replace (sp * r * st * (sp * r * st) + cp * r * (cp * r)
           + sp * r * ct * (sp * r * ct))
    with (r * r * (sp * sp * (st * st + ct * ct) + cp * cp)) by ring.
  rewrite Ht, Rmult_1_r, Hp. ring.
Qed.

Lemma distanceTo_add (t w : Vector3.t) :
  Vector3.distanceTo (Vector3.add t w) t = Vector3.length w.
Proof.
  unfold Vector3.distanceTo, Vector3.length, Vector3.lengthSq, Vector3.sub,
    Vector3.add.
  cbn [Vector3.x Vector3.y Vector3.z]. f_equal. ring.
Qed.

Lemma setFromVector3_radius (p : Vector3.t) :
  Spherical.radius (Spherical.setFromVector3 p) = Vector3.length p.
Proof.
  unfold Spherical.setFromVector3.
  destruct (Req_dec_T (Vector3.length p) 0) as [H0|_]; cbn; congruence.
Qed.

Lemma onLoad_radius_framed (box : Box3.t) (v : Viewer) :
  let d := frameDistance (Box3.getSize box) (Camera.fov (camera v)) in
  Spherical.radius (OrbitControls.spherical (controls (onLoad box v)))
  = clamp (frameMinDistance (Box3.getSize box))
          (frameMaxDistance (Box3.getSize box))
          (Vector3.distanceTo (framePosition d) Vector3.zero
           * OrbitControls.scale (controls v)).
Proof.
  intros d. unfold onLoad, OrbitControls.update. cbn.
  unfold OrbitControls.clampDistance. cbn.
  now rewrite setFromVector3_radius.
Qed.

End FramedDistance.

Lemma initial_controller (w h : R) :
  OrbitControls.enabled (controls (initial w h)) = true
  /\ OrbitControls.scale (controls (initial w h)) = 1
  /\ Camera.fov (camera (initial w h)) = 75.
Proof. repeat split. Qed.

Lemma getSize_cube_10 :
  Box3.getSize (Box3.mk Vector3.zero (Vector3.mk 10 10 10)) = Vector3.mk 10 10 10.
Proof.
  unfold Box3.getSize, Box3.isEmpty, Vector3.zero.
  cbn [Box3.min Box3.max Vector3.x Vector3.y Vector3.z].
  destruct (Rlt_dec 10 0); [lra|].
  unfold Vector3.sub. cbn [Vector3.x Vector3.y Vector3.z]. f_equal; ring.
Qed.

(** C1, as stated, fails: for the 10 x 10 x 10 volume at the script's 75
    degree field of view the camera is placed closer to the target than 0.9
    times the framing distance, and it is still at that distance from the
    controller's target when the load callback has run in the initial
    viewer. *)
Lemma frame_position_outside_band :
  let size := Vector3.mk 10 10 10 in
  let d := frameDistance size 75 in
  let r := Vector3.distanceTo (framePosition d) Vector3.zero in
  let v' := step (initial 1920 1080)
                 (Loaded (Box3.mk Vector3.zero (Vector3.mk 10 10 10))) in
  0 < maxDim size /\ 0 < 75 < 180 /\ r < 0.9 * d /\
  ~ (0.9 * d <= r <= 1.3 * d) /\
  Vector3.distanceTo (Camera.position (camera v'))
                     (OrbitControls.target (controls v')) = r.
Proof.
  intros size d r v'.
  assert (Hm : 0 < maxDim size) by (unfold size; rewrite maxDim_cube; lra).
  assert (Hd : 7.81 < d < 7.83) by apply frameDistance_10_75.
  assert (Hr : r = sqrt 0.1924 * d).
  { unfold r. rewrite distanceTo_zero. apply length_framePosition. lra. }
  generalize sqrt_ratio_bounds. intros [Hlo Hhi].
  assert (Hlt : r < 0.9 * d) by (rewrite Hr; nra).
  repeat (split; [lra|]).
  set (box := Box3.mk Vector3.zero (Vector3.mk 10 10 10)).
  change v' with (onLoad box (initial 1920 1080)).
  destruct (onLoad_installs box (initial 1920 1080)) as [_ [_ [Ht _]]].
  destruct (initial_controller 1920 1080) as [Hen [Hsc Hfov]].
  rewrite Ht, onLoad_position, distanceTo_zero.
  replace (Vector3.add Vector3.zero
             (Spherical.toVector3
                (OrbitControls.spherical
                   (controls (onLoad box (initial 1920 1080))))))
    with (Spherical.toVector3
            (OrbitControls.spherical
               (controls (onLoad box (initial 1920 1080)))))
    by (unfold Vector3.add, Vector3.zero, Spherical.toVector3;
        cbn [Vector3.x Vector3.y Vector3.z]; f_equal; ring).
  assert (Hrad : Spherical.radius
                   (OrbitControls.spherical
                      (controls (onLoad box (initial 1920 1080)))) = r).
  { rewrite onLoad_radius_framed.
    rewrite Hsc, Hfov. unfold box. rewrite getSize_cube_10. fold size d r.
    unfold frameMinDistance, frameMaxDistance. fold size.
    unfold size at 1 2. rewrite maxDim_cube. rewrite Rmult_1_r.
    apply clamp_inside. nra. }
  rewrite length_toVector3; [exact Hrad|]. rewrite Hrad. nra.
Qed.

(** * Further properties of the script *)

(** ** Ranges and scaling of the framing computation *)

Section FramingRanges.

Lemma Rmax_scale (a b k : R) : 0 <= k -> Rmax (a * k) (b * k) = Rmax a b * k.
Proof.
  intros Hk. unfold Rmax.
  destruct (Rle_dec (a * k) (b * k)); destruct (Rle_dec a b); nra.
Qed.

Lemma maxDim_scale (size : Vector3.t) (k : R) :
  0 <= k -> maxDim (Vector3.multiplyScalar size k) = maxDim size * k.
Proof.
  intros Hk. unfold maxDim, Vector3.multiplyScalar.
  cbn [Vector3.x Vector3.y Vector3.z].
  now rewrite !Rmax_scale.
Qed.

Lemma tan_half_75_bounds : 0.766 < tan (fovRadians 75 / 2) < 0.768.
Proof.
  rewrite tan_half_75.
  generalize sqrt2_bounds sqrt3_bounds. intros H2 H3.
  split; [apply lt_div | apply div_lt]; lra.
Qed.

End FramingRanges.

(** X1: for every bounding box the largest extent maxDim is non-negative,
    and the clipping range and the zoom range the load callback derives from
    it are proper exactly when it is positive: near < far and
    minDistance < maxDistance hold if and only if maxDim > 0, with
    far = 10000 near and maxDistance = 50 minDistance in every case. *)
Theorem frame_ranges_proper (box : Box3.t) :
  let size := Box3.getSize box in
  0 <= maxDim size
  /\ 0 <= frameNear size /\ 0 <= frameMinDistance size
  /\ (frameNear size < frameFar size <-> 0 < maxDim size)
  /\ (frameMinDistance size < frameMaxDistance size <-> 0 < maxDim size)
  /\ frameFar size = 10000 * frameNear size
  /\ frameMaxDistance size = 50 * frameMinDistance size.
Proof.
  intros size. pose proof (maxDim_getSize_nonneg box) as H. fold size in H.
  unfold frameNear, frameFar, frameMinDistance, frameMaxDistance.
  repeat split; try lra; intros; lra.
Qed.

(** X2: framing is scale-invariant: scaling the bounding volume by a factor
    k > 0 scales the framing distance, the camera position, the clipping
    planes and the zoom limits by the same k, whatever the field of view. *)
Theorem frame_scales (size : Vector3.t) (fovDegrees k : R) :
  0 < k ->
  let scaled := Vector3.multiplyScalar size k in
  frameDistance scaled fovDegrees = frameDistance size fovDegrees * k
  /\ framePosition (frameDistance scaled fovDegrees)
     = Vector3.multiplyScalar (framePosition (frameDistance size fovDegrees)) k
  /\ frameNear scaled = frameNear size * k
  /\ frameFar scaled = frameFar size * k
  /\ frameMinDistance scaled = frameMinDistance size * k
  /\ frameMaxDistance scaled = frameMaxDistance size * k.
Proof.
  intros Hk scaled.
  assert (Hm : maxDim scaled = maxDim size * k)
    by (apply maxDim_scale; lra).
  assert (Hd : frameDistance scaled fovDegrees = frameDistance size fovDegrees * k).
  { unfold frameDistance. rewrite Hm. unfold Rdiv. ring. }
  unfold frameNear, frameFar, frameMinDistance, frameMaxDistance.
  rewrite Hm, Hd.
  repeat split; try lra.
  unfold framePosition, Vector3.multiplyScalar.
  cbn [Vector3.x Vector3.y Vector3.z]. f_equal; ring.
Qed.

Lemma frame_scales_witness :
  let size := Vector3.mk 10 10 10 in
  let scaled := Vector3.multiplyScalar size 3 in
  frameDistance scaled 75 = frameDistance size 75 * 3
  /\ framePosition (frameDistance scaled 75)
     = Vector3.multiplyScalar (framePosition (frameDistance size 75)) 3
  /\ frameNear scaled = frameNear size * 3
  /\ frameFar scaled = frameFar size * 3
  /\ frameMinDistance scaled = frameMinDistance size * 3
  /\ frameMaxDistance scaled = frameMaxDistance size * 3.
Proof.
  apply (frame_scales (Vector3.mk 10 10 10) 75 3). lra.
Defined.

Lemma framed_radius_in_range (size : Vector3.t) :
  0 < maxDim size ->
  let r := Vector3.distanceTo (framePosition (frameDistance size 75))
                              Vector3.zero in
  frameMinDistance size < r < frameMaxDistance size
  /\ 0.33 * maxDim size < r < 0.35 * maxDim size
  /\ clamp (frameMinDistance size) (frameMaxDistance size) r = r.
Proof.
  intros Hm r.
  set (d := frameDistance size 75).
  assert (Hd : 0.78 * maxDim size < d < 0.79 * maxDim size).
  { unfold d, frameDistance.
    destruct tan_half_75_bounds as [Hlo Hhi].
    set (T := tan (fovRadians 75 / 2)) in *.
    replace (maxDim size / (2 * T) * 1.2) with (0.6 * maxDim size / T)
      by (replace 1.2 with (12 / 10) by lra;
          replace 0.6 with (6 / 10) by lra; field; lra).
    split; [apply lt_div | apply div_lt]; nra. }
  assert (Hr : r = sqrt 0.1924 * d).
  { unfold r. rewrite distanceTo_zero. apply length_framePosition. lra. }
  generalize sqrt_ratio_bounds. intros [Hslo Hshi].
  assert (Hb : 0.33 * maxDim size < r < 0.35 * maxDim size)
    by (rewrite Hr; split; nra).
  unfold frameMinDistance, frameMaxDistance.
  split; [lra|]. split; [exact Hb|]. apply clamp_inside. lra.
Qed.

(** X3: at the script's 75 degree field of view the camera position set by
    framing lies strictly inside the zoom range, for every bounding volume
    with maxDim > 0: minDistance < |position - target| < maxDistance (it is
    between 0.33 and 0.35 times maxDim, against limits of 0.1 and 5 times
    maxDim), so the distance limits do not move the freshly framed camera. *)
Theorem framed_position_within_zoom_range (size : Vector3.t) :
  0 < maxDim size ->
  let r := Vector3.distanceTo (framePosition (frameDistance size 75))
                              Vector3.zero in
  frameMinDistance size < r < frameMaxDistance size
  /\ 0.33 * maxDim size < r < 0.35 * maxDim size
  /\ clamp (frameMinDistance size) (frameMaxDistance size) r = r.
Proof.
  intros Hm. now apply framed_radius_in_range.
Qed.

Lemma framed_position_within_zoom_range_witness :
  let size := Vector3.mk 10 10 10 in
  let r := Vector3.distanceTo (framePosition (frameDistance size 75))
                              Vector3.zero in
  frameMinDistance size < r < frameMaxDistance size
  /\ 0.33 * maxDim size < r < 0.35 * maxDim size
  /\ clamp (frameMinDistance size) (frameMaxDistance size) r = r.
Proof.
  apply (framed_position_within_zoom_range (Vector3.mk 10 10 10)).
  rewrite maxDim_cube. lra.
Defined.

(** ** The loading indicator *)

Section LoadingIndicator.

Lemma step_progressVisible (v : Viewer) (e : Event) :
  progressVisible (step v e) = progressVisible v && negb (isLoaded e).
Proof.
  destruct e; cbn [step isLoaded negb]; rewrite ?andb_true_r, ?andb_false_r;
    try reflexivity.
  - unfold onMouseDown. now destruct ((button =? 0)%Z && shiftKey).
  - unfold onMouseUp. now destruct (isShiftDragging v).
  - unfold onMouseMove. now destruct (isShiftDragging v).
Qed.

Lemma run_progressVisible (es : list Event) (v : Viewer) :
  progressVisible (run v es) = progressVisible v && negb (existsb isLoaded es).
Proof.
  revert v. induction es as [|e es IH]; intros v.
  - cbn. now rewrite andb_true_r.
  - change (run v (e :: es)) with (run (step v e) es).
    rewrite IH, step_progressVisible. cbn [existsb].
    rewrite negb_orb. now rewrite andb_assoc.
Qed.

End LoadingIndicator.

(** X4: the loading indicator is hidden by a completed load and by nothing
    else: after any sequence of events from the initial state it is still
    showing if and only if no load has completed; in particular a failed
    load leaves it showing. *)
Theorem indicator_hidden_by_load_only (innerWidth innerHeight : R)
    (es : list Event) :
  progressVisible (run (initial innerWidth innerHeight) es)
  = negb (existsb isLoaded es).
Proof.
  now rewrite run_progressVisible.
Qed.

(** ** Entering the gesture *)

Lemma step_from_idle (v : Viewer) (e : Event) :
  isShiftDragging v = false ->
  isShiftDragging (step v e)
  = match e with
    | MouseDown button shiftKey _ => (button =? 0)%Z && shiftKey
    | _ => false
    end.
Proof.
  intros Hd. destruct e; cbn [step]; try exact Hd.
  - unfold onMouseDown. now destruct ((button =? 0)%Z && shiftKey).
  - unfold onMouseUp. now rewrite Hd.
  - unfold onMouseMove. now rewrite Hd.
Qed.

(** X5: the modifier-drag gesture starts only on a mousedown of the primary
    button (0) with the shift key held: from a state with no gesture, an
    event starts one if and only if it is such a mousedown, and the gesture
    then records that event's y coordinate, disables the orbit controller
    and leaves the camera where it is. *)
Theorem gesture_entry (v : Viewer) (e : Event) :
  isShiftDragging v = false ->
  (isShiftDragging (step v e) = true
   <-> exists clientY : R, e = MouseDown 0 true clientY)
  /\ (forall clientY : R,
       e = MouseDown 0 true clientY ->
       previousY (step v e) = clientY
       /\ OrbitControls.enabled (controls (step v e)) = false
       /\ camera (step v e) = camera v).
Proof.
  intros Hd. split; [split|].
  - rewrite step_from_idle by exact Hd.
    destruct e; try discriminate.
    destruct (Z.eqb_spec button 0) as [->|Hb]; destruct shiftKey;
      try discriminate.
    intros _. now exists clientY.
  - intros [clientY ->]. reflexivity.
  - intros clientY ->. repeat split.
Qed.

Lemma gesture_entry_witness :
  let v := initial 1920 1080 in
  let e := MouseDown 0 true 300 in
  (isShiftDragging (step v e) = true
   <-> exists clientY : R, e = MouseDown 0 true clientY)
  /\ (forall clientY : R,
       e = MouseDown 0 true clientY ->
       previousY (step v e) = clientY
       /\ OrbitControls.enabled (controls (step v e)) = false
       /\ camera (step v e) = camera v).
Proof.
  apply (gesture_entry (initial 1920 1080) (MouseDown 0 true 300)).
  reflexivity.
Defined.

(** ** The drag as a whole *)

Section Drag.

Lemma addScaledVector_twice (p d : Vector3.t) (s1 s2 : R) :
  Vector3.addScaledVector (Vector3.addScaledVector p d s1) d s2
  = Vector3.addScaledVector p d (s1 + s2).
Proof.
  unfold Vector3.addScaledVector. cbn [Vector3.x Vector3.y Vector3.z].
  f_equal; ring.
Qed.

Lemma addScaledVector_zero (p d : Vector3.t) (s : R) :
  s = 0 -> Vector3.addScaledVector p d s = p.
Proof.
  intros ->. destruct p as [px py pz]. unfold Vector3.addScaledVector.
  cbn [Vector3.x Vector3.y Vector3.z]. f_equal; ring.
Qed.

Lemma setPosition_same (c : Camera.t) (p : Vector3.t) :
  p = Camera.position c -> Camera.setPosition c p = c.
Proof. intros ->. now destruct c. Qed.

Lemma setPosition_twice (c : Camera.t) (p q : Vector3.t) :
  Camera.setPosition (Camera.setPosition c p) q = Camera.setPosition c q.
Proof. reflexivity. Qed.

Lemma drag_input_step (v : Viewer) (e : Event) :
  isShiftDragging v = true -> isDragInput e = true ->
  step v e
  = mkViewer
      (Camera.setPosition (camera v)
         (Vector3.addScaledVector (Camera.position (camera v))
            (Camera.getWorldDirection (camera v))
            (- (pointerY (previousY v) [e] - previousY v) * zoomSpeed)))
      (controls v) true (pointerY (previousY v) [e]) (progressVisible v).
Proof.
  intros Hd He. destruct e; try discriminate; cbn [step pointerY fold_left].
  - unfold onMouseMove. now rewrite Hd.
  - rewrite addScaledVector_zero by lra.
    rewrite setPosition_same by reflexivity. rewrite <- Hd. now destruct v.
  - rewrite addScaledVector_zero by lra.
    rewrite setPosition_same by reflexivity. rewrite <- Hd. now destruct v.
Qed.

Lemma drag_inputs_run (es : list Event) (v : Viewer) :
  isShiftDragging v = true -> forallb isDragInput es = true ->
  run v es
  = mkViewer
      (Camera.setPosition (camera v)
         (Vector3.addScaledVector (Camera.position (camera v))
            (Camera.getWorldDirection (camera v))
            (- (pointerY (previousY v) es - previousY v) * zoomSpeed)))
      (controls v) true (pointerY (previousY v) es) (progressVisible v).
Proof.
  revert v. induction es as [|e es IH]; intros v Hd Hes.
  - cbn [run fold_left pointerY].
    rewrite addScaledVector_zero by lra.
    rewrite setPosition_same by reflexivity. rewrite <- Hd. now destruct v.
  - next_event Hes He v e es.
    rewrite (drag_input_step v e Hd He).
    rewrite IH by (try reflexivity; exact Hes).
    cbn [camera controls previousY progressVisible].
    rewrite setPosition_twice.
    change (Camera.position (Camera.setPosition (camera v) ?p)) with p.
    change (Camera.getWorldDirection (Camera.setPosition (camera v) ?p))
      with (Camera.getWorldDirection (camera v)).
    rewrite addScaledVector_twice.
    change (pointerY (pointerY (previousY v) [e]) es)
      with (pointerY (previousY v) (e :: es)).
    f_equal. f_equal. f_equal.
    unfold zoomSpeed. lra.
Qed.

End Drag.

(** X6: during a modifier-drag the camera position depends only on where
    the pointer is, not on the path it took: after any sequence of pointer
    moves (and modifier-key changes) the camera is at its position at the
    start of the sequence moved along its view direction by
    -(y - y0) * 0.5, where y is the last pointer y and y0 the one recorded
    at the start; the view direction and the controller are unchanged, and
    bringing the pointer back to y0 brings the camera back exactly. *)
Theorem drag_depends_on_pointer_only (v : Viewer) (es : list Event) :
  isShiftDragging v = true -> forallb isDragInput es = true ->
  let y0 := previousY v in
  let y := pointerY y0 es in
  let v' := run v es in
  previousY v' = y
  /\ Camera.position (camera v')
     = Vector3.addScaledVector (Camera.position (camera v))
         (Camera.getWorldDirection (camera v)) (- (y - y0) * zoomSpeed)
  /\ Camera.getWorldDirection (camera v') = Camera.getWorldDirection (camera v)
  /\ controls v' = controls v
  /\ isShiftDragging v' = true
  /\ (y = y0 -> v' = v).
Proof.
  intros Hd Hes y0 y v'.
  assert (Hrun := drag_inputs_run es v Hd Hes). fold y0 y v' in Hrun.
  rewrite Hrun. cbn. repeat split.
  intros Hy. rewrite addScaledVector_zero by (rewrite Hy; lra).
  rewrite setPosition_same by reflexivity. rewrite Hy. unfold y0.
  rewrite <- Hd. now destruct v.
Qed.

Lemma drag_depends_on_pointer_only_witness :
  let v := step (initial 1920 1080) (MouseDown 0 true 300) in
  let es := [MouseMove true 260; KeyUp; MouseMove false 340; MouseMove false 300] in
  let y0 := previousY v in
  let y := pointerY y0 es in
  let v' := run v es in
  previousY v' = y
  /\ Camera.position (camera v')
     = Vector3.addScaledVector (Camera.position (camera v))
         (Camera.getWorldDirection (camera v)) (- (y - y0) * zoomSpeed)
  /\ Camera.getWorldDirection (camera v') = Camera.getWorldDirection (camera v)
  /\ controls v' = controls v
  /\ isShiftDragging v' = true
  /\ (y = y0 -> v' = v).
Proof.
  apply (drag_depends_on_pointer_only
           (step (initial 1920 1080) (MouseDown 0 true 300))
           [MouseMove true 260; KeyUp; MouseMove false 340; MouseMove false 300]);
    reflexivity.
Defined.

Section Unclamped.

Lemma lengthSq_addScaled_ge (a d : Vector3.t) (s : R) :
  Vector3.lengthSq d = 1 -> 0 <= s * Vector3.dot a d ->
  s * s <= Vector3.lengthSq (Vector3.addScaledVector a d s).
Proof.
  intros Hd Hs.
  replace (Vector3.lengthSq (Vector3.addScaledVector a d s))
    with (Vector3.lengthSq a + 2 * (s * Vector3.dot a d)
          + s * s * Vector3.lengthSq d)
    by (unfold Vector3.lengthSq, Vector3.addScaledVector, Vector3.dot;
        cbn [Vector3.x Vector3.y Vector3.z]; ring).
  rewrite Hd. generalize (lengthSq_nonneg a). lra.
Qed.

Lemma sub_addScaledVector (p t d : Vector3.t) (s : R) :
  Vector3.sub (Vector3.addScaledVector p d s) t
  = Vector3.addScaledVector (Vector3.sub p t) d s.
Proof.
  unfold Vector3.sub, Vector3.addScaledVector.
  cbn [Vector3.x Vector3.y Vector3.z]. f_equal; ring.
Qed.

End Unclamped.

(** X7: the dolly of the modifier-drag is not limited by the controller's
    distance range: in every state with an active gesture, for every bound
    M there is a pointer position whose move leaves the camera farther than
    M from the orbit target, maxDistance included. *)
Theorem dolly_not_clamped (innerWidth innerHeight : R) (es : list Event)
    (M : R) :
  let v := run (initial innerWidth innerHeight) es in
  isShiftDragging v = true ->
  exists clientY : R,
    let v' := step v (MouseMove false clientY) in
    M < Vector3.distanceTo (Camera.position (camera v'))
                           (OrbitControls.target (controls v'))
    /\ OrbitControls.maxDistance (controls v')
       = OrbitControls.maxDistance (controls v).
Proof.
  intros v Hd.
  pose proof (reachable_unitDirection innerWidth innerHeight es) as Hu.
  fold v in Hu. unfold unitDirection in Hu.
  set (d := Camera.getWorldDirection (camera v)) in *.
  set (a := Vector3.sub (Camera.position (camera v))
                        (OrbitControls.target (controls v))).
  set (m := Rabs M + 1).
  assert (Hm : 0 < m /\ M < m).
  { unfold m. generalize (Rabs_pos M) (Rle_abs M). lra. }
  set (s := if Rle_dec 0 (Vector3.dot a d) then m else - m).
  assert (Hs : 0 <= s * Vector3.dot a d /\ s * s = m * m).
  { unfold s. destruct (Rle_dec 0 (Vector3.dot a d)); split; nra. }
  exists (previousY v - 2 * s). intros v'.
  destruct (onMouseMove_dragging v (previousY v - 2 * s) Hd)
    as [Hp [_ [_ Hc]]].
  change (onMouseMove (previousY v - 2 * s) v) with v' in Hp, Hc.
  rewrite Hc. split; [|reflexivity].
  rewrite Hp. fold d. unfold Vector3.distanceTo.
  rewrite sub_addScaledVector. fold a.
  replace (- (previousY v - 2 * s - previousY v) * zoomSpeed) with s
    by (unfold zoomSpeed; lra).
  apply Rlt_le_trans with m; [tauto|].
  rewrite <- (sqrt_square m) by lra.
  unfold Vector3.length. apply sqrt_le_1_alt.
  destruct Hs as [Hs1 Hs2]. rewrite <- Hs2.
  apply lengthSq_addScaled_ge; [now apply unit_lengthSq | exact Hs1].
Qed.

Lemma dolly_not_clamped_witness :
  let v := run (initial 1920 1080)
               [Loaded (Box3.mk Vector3.zero (Vector3.mk 10 10 10));
                MouseDown 0 true 300] in
  exists clientY : R,
    let v' := step v (MouseMove false clientY) in
    50 < Vector3.distanceTo (Camera.position (camera v'))
                            (OrbitControls.target (controls v'))
    /\ OrbitControls.maxDistance (controls v')
       = OrbitControls.maxDistance (controls v).
Proof.
  apply (dolly_not_clamped 1920 1080
           [Loaded (Box3.mk Vector3.zero (Vector3.mk 10 10 10));
            MouseDown 0 true 300] 50).
  reflexivity.
Defined.

(** ** Resizing *)

Section Resizing.

Lemma withAspect_eta (v : Viewer) :
  withAspect (Camera.aspect (camera v)) v = v.
Proof. destruct v as [c o d y p]. destruct c. reflexivity. Qed.

Lemma step_withAspect (a : R) (v : Viewer) (e : Event) :
  isResize e = false -> step (withAspect a v) e = withAspect a (step v e).
Proof.
  intros He. destruct v as [c o dragging y p].
  destruct e; try discriminate; cbn [step]; try reflexivity.
  - unfold onMouseDown. destruct ((button =? 0)%Z && shiftKey); reflexivity.
  - destruct dragging; reflexivity.
  - destruct dragging; reflexivity.
Qed.

Lemma run_withAspect (es : list Event) (a : R) (v : Viewer) :
  run (withAspect a v) es
  = withAspect (aspectAfter a es) (run v (filter notResize es)).
Proof.
  revert a v. induction es as [|e es IH]; intros a v; [reflexivity|].
  change (run (withAspect a v) (e :: es))
    with (run (step (withAspect a v) e) es).
  destruct (isResize e) eqn:He.
  - destruct e; try discriminate.
    cbn [filter notResize isResize negb aspectAfter fold_left].
    change (step (withAspect a v) (Resize innerWidth innerHeight))
      with (withAspect (innerWidth / innerHeight) v).
    apply IH.
  - rewrite step_withAspect by exact He. rewrite IH.
    cbn [filter]. unfold notResize at 2. rewrite He. cbn [negb].
    replace (aspectAfter a (e :: es)) with (aspectAfter a es);
      [reflexivity|].
    destruct e; try reflexivity; discriminate.
Qed.

End Resizing.

(** X8: resizing the window changes the camera's aspect ratio and nothing
    else, now or later: the state after any sequence of events is the state
    after the same sequence without its resize events, with the aspect
    ratio of the last resize; in particular camera position, view
    direction, clipping planes, controller and gesture state do not depend
    on resizes. *)
Theorem resize_changes_aspect_only (v : Viewer) (es : list Event) :
  let v' := run v es in
  let w' := run v (filter notResize es) in
  v' = withAspect (aspectAfter (Camera.aspect (camera v)) es) w'
  /\ Camera.position (camera v') = Camera.position (camera w')
  /\ Camera.direction (camera v') = Camera.direction (camera w')
  /\ Camera.near (camera v') = Camera.near (camera w')
  /\ Camera.far (camera v') = Camera.far (camera w')
  /\ controls v' = controls w'
  /\ isShiftDragging v' = isShiftDragging w'
  /\ previousY v' = previousY w'.
Proof.
  intros v' w'.
  assert (H : v' = withAspect (aspectAfter (Camera.aspect (camera v)) es) w').
  { unfold v', w'. rewrite <- run_withAspect. now rewrite withAspect_eta. }
  split; [exact H|]. rewrite H. repeat split.
Qed.

(** ** What stays as framed *)

Section Settings.

Lemma onLoad_ranges (box : Box3.t) (v : Viewer) :
  ranges (onLoad box v)
  = (frameNear (Box3.getSize box), frameFar (Box3.getSize box),
     frameMinDistance (Box3.getSize box),
     Some (frameMaxDistance (Box3.getSize box))).
Proof. reflexivity. Qed.

Lemma step_ranges (v : Viewer) (e : Event) :
  isLoaded e = false -> ranges (step v e) = ranges v.
Proof.
  intros He. unfold ranges.
  destruct e; try discriminate; cbn [step]; try reflexivity.
  - unfold onMouseDown. now destruct ((button =? 0)%Z && shiftKey).
  - unfold onMouseUp. now destruct (isShiftDragging v).
  - unfold onMouseMove. now destruct (isShiftDragging v).
  - unfold onOrbitDrag, OrbitControls.rotate. cbn.
    now destruct (OrbitControls.enabled (controls v)).
  - unfold onWheel, OrbitControls.zoom. cbn.
    now destruct (OrbitControls.enabled (controls v)).
Qed.

Lemma run_ranges (es : list Event) (v : Viewer) :
  forallb notLoaded es = true -> ranges (run v es) = ranges v.
Proof.
  revert v. induction es as [|e es IH]; intros v Hes; [reflexivity|].
  next_event Hes He v e es.
  rewrite IH by exact Hes. apply step_ranges.
  unfold notLoaded in He. now destruct (isLoaded e).
Qed.

End Settings.

(** X9: the clipping planes and the zoom limits a load installs stay until
    the next load: after the load callback has run for a box, no sequence of
    pointer, key, wheel, frame, resize or reset events changes near
    (maxDim / 100), far (maxDim * 100), minDistance (maxDim * 0.1) or
    maxDistance (maxDim * 5): the load callback is the only handler that
    writes them, and the controller's update and reset only read them. *)
Theorem framing_settings_persist (v : Viewer) (box : Box3.t)
    (es : list Event) :
  forallb notLoaded es = true ->
  let size := Box3.getSize box in
  let v' := run (step v (Loaded box)) es in
  Camera.near (camera v') = maxDim size / 100
  /\ Camera.far (camera v') = maxDim size * 100
  /\ OrbitControls.minDistance (controls v') = maxDim size * 0.1
  /\ OrbitControls.maxDistance (controls v') = Some (maxDim size * 5).
Proof.
  intros Hes size v'.
  assert (H : ranges v' = ranges (onLoad box v))
    by (unfold v'; cbn [step]; now apply run_ranges).
  rewrite onLoad_ranges in H. unfold ranges in H.
  injection H as H1 H2 H3 H4.
  unfold frameNear in H1. unfold frameFar in H2.
  unfold frameMinDistance in H3. unfold frameMaxDistance in H4.
  repeat split; assumption.
Qed.

Lemma framing_settings_persist_witness :
  let box := Box3.mk Vector3.zero (Vector3.mk 10 10 10) in
  let es := [OrbitDrag 1 0; Tick; MouseDown 0 true 300; MouseMove true 260;
             MouseUp 0 true; Wheel 2; ResetClick; Resize 800 600; Tick] in
  let size := Box3.getSize box in
  let v' := run (step (initial 1920 1080) (Loaded box)) es in
  Camera.near (camera v') = maxDim size / 100
  /\ Camera.far (camera v') = maxDim size * 100
  /\ OrbitControls.minDistance (controls v') = maxDim size * 0.1
  /\ OrbitControls.maxDistance (controls v') = Some (maxDim size * 5).
Proof.
  apply (framing_settings_persist (initial 1920 1080)
           (Box3.mk Vector3.zero (Vector3.mk 10 10 10))
           [OrbitDrag 1 0; Tick; MouseDown 0 true 300; MouseMove true 260;
            MouseUp 0 true; Wheel 2; ResetClick; Resize 800 600; Tick]).
  reflexivity.
Defined.

(** ** The progress text *)

Section Progress.

Lemma round_half_up (x : R) :
  0 <= x ->
  (0 <= Int_part (x + 1 / 2))%Z
  /\ Rabs (IZR (Int_part (x + 1 / 2)) - x) <= 1 / 2.
Proof.
  intros Hx. destruct (base_Int_part (x + 1 / 2)) as [Hle Hgt].
  split.
  - apply Z.lt_succ_r. apply lt_IZR. rewrite succ_IZR. lra.
  - apply Rabs_le. lra.
Qed.

Lemma round_half_up_le (x : R) (n : Z) :
  x <= IZR n -> (Int_part (x + 1 / 2) <= n)%Z.
Proof.
  intros Hx. destruct (base_Int_part (x + 1 / 2)) as [Hle _].
  apply Z.lt_succ_r. apply lt_IZR. rewrite succ_IZR. lra.
Qed.

Lemma round_integer (n : Z) : Int_part (IZR n + 1 / 2) = n.
Proof. symmetry. apply Int_part_spec. lra. Qed.

Lemma toFixed0_nonneg (x : R) :
  0 <= x -> toFixed0 x = digits (Int_part (x + 1 / 2)).
Proof.
  intros Hx. unfold toFixed0. destruct (Rlt_dec x 0); [lra | reflexivity].
Qed.

Lemma percentage_range (loaded total : R) :
  0 < total -> 0 <= loaded <= total -> 0 <= loaded / total * 100 <= 100.
Proof.
  intros Ht [H0 H1].
  assert (Hq : 0 <= loaded / total <= 1).
  { split.
    - apply Rmult_le_pos; [exact H0 | left; now apply Rinv_0_lt_compat].
    - apply Rmult_le_reg_r with total; [exact Ht|].
      unfold Rdiv. rewrite Rmult_assoc, Rinv_l by lra. lra. }
  lra.
Qed.

End Progress.

(** X10: the progress callback never divides by a zero total and shows a
    percentage only when it can compute one: with no progress element
    nothing is written; with total <= 0 the text is left as it is; with
    total > 0 and 0 <= loaded <= total the text becomes "Loading n%" for an
    integer n between 0 and 100 that is within 1/2 of loaded / total * 100,
    in particular "Loading 0%" for loaded = 0 and "Loading 100%" for
    loaded = total. *)
Theorem progress_text (innerText : String.string) (loaded total : R) :
  onProgress None loaded total = None
  /\ (total <= 0 -> onProgress (Some innerText) loaded total = Some innerText)
  /\ (0 < total -> 0 <= loaded <= total ->
      exists n : Z,
        (0 <= n <= 100)%Z
        /\ Rabs (IZR n - loaded / total * 100) <= 1 / 2
        /\ onProgress (Some innerText) loaded total
           = Some (loadingText (digits n)))
  /\ (0 < total ->
      onProgress (Some innerText) 0 total = Some (loadingText "0")
      /\ onProgress (Some innerText) total total = Some (loadingText "100")).
Proof.
  split; [reflexivity|]. split; [|split].
  - intros Ht. unfold onProgress. destruct (Rlt_dec 0 total); [lra | reflexivity].
  - intros Ht Hl.
    destruct (percentage_range loaded total Ht Hl) as [H0 H100].
    destruct (round_half_up _ H0) as [Hn Hr].
    exists (Int_part (loaded / total * 100 + 1 / 2)).
    split; [split; [exact Hn | now apply round_half_up_le]|].
    split; [exact Hr|].
    unfold onProgress. destruct (Rlt_dec 0 total); [|lra].
    now rewrite toFixed0_nonneg.
  - intros Ht. unfold onProgress. destruct (Rlt_dec 0 total); [|lra].
    replace (0 / total * 100) with (IZR 0) by (unfold Rdiv; ring).
    replace (total / total * 100) with (IZR 100) by (field; lra).
    rewrite !toFixed0_nonneg by lra. rewrite !round_integer.
    split; reflexivity.
Qed.

(** ** The fog shader *)

Section Fog.

Lemma glsl_clamp_unit (x : R) : 0 <= FogShader.clamp x 0 1 <= 1.
Proof.
  unfold FogShader.clamp, Rmin, Rmax.
  destruct (Rle_dec x 0); destruct (Rle_dec _ 1); lra.
Qed.

Lemma smoothstep_unit (edge0 edge1 x : R) :
  0 <= FogShader.smoothstep edge0 edge1 x <= 1.
Proof.
  unfold FogShader.smoothstep.
  generalize (glsl_clamp_unit ((x - edge0) / (edge1 - edge0))).
  set (t := FogShader.clamp _ 0 1). intros [H0 H1].
  assert (Hlo : 0 <= t * t * (3 - 2 * t)) by (apply Rmult_le_pos; nra).
  assert (Hhi : 0 <= (1 - t) * (1 - t) * (1 + 2 * t))
    by (apply Rmult_le_pos; nra).
  split; [exact Hlo | nra].
Qed.

Lemma smoothstep_below (edge0 edge1 x : R) :
  edge0 < edge1 -> x <= edge0 -> FogShader.smoothstep edge0 edge1 x = 0.
Proof.
  intros He Hx. unfold FogShader.smoothstep.
  assert (Hq : (x - edge0) / (edge1 - edge0) <= 0).
  { unfold Rdiv.
    assert (0 < / (edge1 - edge0)) by (apply Rinv_0_lt_compat; lra). nra. }
  replace (FogShader.clamp ((x - edge0) / (edge1 - edge0)) 0 1) with 0;
    [ring|].
  unfold FogShader.clamp, Rmin, Rmax.
  destruct (Rle_dec ((x - edge0) / (edge1 - edge0)) 0); [|lra].
  destruct (Rle_dec 0 1); lra.
Qed.

Lemma smoothstep_above (edge0 edge1 x : R) :
  edge0 < edge1 -> edge1 <= x -> FogShader.smoothstep edge0 edge1 x = 1.
Proof.
  intros He Hx. unfold FogShader.smoothstep.
  assert (Hq : 1 <= (x - edge0) / (edge1 - edge0)).
  { apply Rmult_le_reg_r with (edge1 - edge0); [lra|].
    unfold Rdiv. rewrite Rmult_assoc, Rinv_l by lra. lra. }
  replace (FogShader.clamp ((x - edge0) / (edge1 - edge0)) 0 1) with 1;
    [ring|].
  unfold FogShader.clamp, Rmin, Rmax.
  destruct (Rle_dec ((x - edge0) / (edge1 - edge0)) 0); [lra|].
  destruct (Rle_dec _ 1); lra.
Qed.

Lemma mix_between (x y a : R) :
  0 <= a <= 1 -> Rmin x y <= FogShader.mix x y a <= Rmax x y.
Proof.
  intros [H0 H1]. unfold FogShader.mix, Rmin, Rmax.
  destruct (Rle_dec x y); split; nra.
Qed.

Lemma mix3_zero (p q : FogShader.vec3) : FogShader.mix3 p q 0 = p.
Proof.
  destruct p as [pr pg pb]. unfold FogShader.mix3, FogShader.mix.
  cbn [FogShader.r FogShader.g FogShader.b]. f_equal; ring.
Qed.

Lemma mix3_one (p q : FogShader.vec3) : FogShader.mix3 p q 1 = q.
Proof.
  destruct q as [qr qg qb]. unfold FogShader.mix3, FogShader.mix.
  cbn [FogShader.r FogShader.g FogShader.b]. f_equal; ring.
Qed.

Lemma screen_distance (vUv : FogShader.vec2) :
  0 <= FogShader.x vUv <= 1 -> 0 <= FogShader.y vUv <= 1 ->
  FogShader.distance vUv (FogShader.mkVec2 0.5 0.5) <= 0.71.
Proof.
  intros Hx Hy. unfold FogShader.distance.
  cbn [FogShader.x FogShader.y].
  rewrite <- (sqrt_square 0.71) by lra.
  apply sqrt_le_1_alt. nra.
Qed.

End Fog.

(** X11: with the script's uniforms (radius 0.85 + sin(t) * 0.01, softness
    0.2, strength 1) the fog shader changes no pixel of the screen: for
    every time t the radius stays within [0.84, 0.86], while a texture
    coordinate in the unit square is at most 0.71 from the centre
    (0.5, 0.5); so the fog factor is 0 and the fragment colour is the
    scene colour, whatever the fog colour. *)
Theorem fog_leaves_screen_unchanged (color : FogShader.vec3) (t : R)
    (sceneColor : FogShader.vec4) (vUv : FogShader.vec2) :
  0 <= FogShader.x vUv <= 1 -> 0 <= FogShader.y vUv <= 1 ->
  0.84 <= FogShader.radius (FogShader.uniformsAt color t) <= 0.86
  /\ FogShader.distance vUv (FogShader.mkVec2 0.5 0.5) <= 0.71
  /\ FogShader.fogFactor (FogShader.uniformsAt color t) vUv = 0
  /\ FogShader.main (FogShader.uniformsAt color t) sceneColor vUv = sceneColor.
Proof.
  intros Hx Hy.
  pose proof (screen_distance vUv Hx Hy) as Hd.
  assert (Hr : 0.84 <= 0.85 + sin t * 0.01 <= 0.86)
    by (generalize (SIN_bound t); lra).
  assert (Hf : FogShader.fogFactor (FogShader.uniformsAt color t) vUv = 0).
  { unfold FogShader.fogFactor, FogShader.uniformsAt.
    cbn [FogShader.radius FogShader.softness].
    apply smoothstep_below; lra. }
  split; [exact Hr|]. split; [exact Hd|]. split; [exact Hf|].
  unfold FogShader.main. rewrite Hf, Rmult_0_l, mix3_zero.
  now destruct sceneColor.
Qed.

Lemma fog_leaves_screen_unchanged_witness :
  let color := FogShader.mkVec3 0.5 0.5 0.5 in
  let sceneColor := FogShader.mkVec4 (FogShader.mkVec3 1 0 0) 1 in
  let vUv := FogShader.mkVec2 1 1 in
  0.84 <= FogShader.radius (FogShader.uniformsAt color 0) <= 0.86
  /\ FogShader.distance vUv (FogShader.mkVec2 0.5 0.5) <= 0.71
  /\ FogShader.fogFactor (FogShader.uniformsAt color 0) vUv = 0
  /\ FogShader.main (FogShader.uniformsAt color 0) sceneColor vUv = sceneColor.
Proof.
  apply (fog_leaves_screen_unchanged (FogShader.mkVec3 0.5 0.5 0.5) 0
           (FogShader.mkVec4 (FogShader.mkVec3 1 0 0) 1)
           (FogShader.mkVec2 1 1));
    cbn [FogShader.x FogShader.y]; lra.
Defined.

(** X12: for any uniforms with softness > 0 and strength in [0, 1] the fog
    shader blends: the fog factor is in [0, 1], every colour channel of the
    fragment lies between the scene's and the fog's, the alpha is the
    scene's; a fragment no farther than radius from the centre keeps the
    scene colour, and with strength 1 a fragment at radius + softness or
    farther gets the fog colour. *)
Theorem fog_blends (uniforms : FogShader.Uniforms)
    (sceneColor : FogShader.vec4) (vUv : FogShader.vec2) :
  0 < FogShader.softness uniforms ->
  0 <= FogShader.strength uniforms <= 1 ->
  let out := FogShader.main uniforms sceneColor vUv in
  let scene := FogShader.rgb sceneColor in
  let fog := FogShader.fogColor uniforms in
  let dist := FogShader.distance vUv (FogShader.mkVec2 0.5 0.5) in
  0 <= FogShader.fogFactor uniforms vUv <= 1
  /\ Rmin (FogShader.r scene) (FogShader.r fog) <= FogShader.r (FogShader.rgb out)
     <= Rmax (FogShader.r scene) (FogShader.r fog)
  /\ Rmin (FogShader.g scene) (FogShader.g fog) <= FogShader.g (FogShader.rgb out)
     <= Rmax (FogShader.g scene) (FogShader.g fog)
  /\ Rmin (FogShader.b scene) (FogShader.b fog) <= FogShader.b (FogShader.rgb out)
     <= Rmax (FogShader.b scene) (FogShader.b fog)
  /\ FogShader.a out = FogShader.a sceneColor
  /\ (dist <= FogShader.radius uniforms -> out = sceneColor)
  /\ (FogShader.strength uniforms = 1 ->
      FogShader.radius uniforms + FogShader.softness uniforms <= dist ->
      FogShader.rgb out = fog).
Proof.
  intros Hs Hst out scene fog dist.
  assert (Hf : 0 <= FogShader.fogFactor uniforms vUv <= 1)
    by apply smoothstep_unit.
  assert (Ha : 0 <= FogShader.fogFactor uniforms vUv
                    * FogShader.strength uniforms <= 1) by nra.
  split; [exact Hf|].
  split; [apply mix_between, Ha|].
  split; [apply mix_between, Ha|].
  split; [apply mix_between, Ha|].
  split; [reflexivity|]. split.
  - intros Hd. unfold out, FogShader.main, FogShader.fogFactor.
    fold dist. rewrite smoothstep_below by lra.
    rewrite Rmult_0_l, mix3_zero. now destruct sceneColor.
  - intros H1 Hd. unfold out, FogShader.main, FogShader.fogFactor.
    fold dist. rewrite smoothstep_above by lra.
    rewrite H1, Rmult_1_l. cbn [FogShader.rgb]. apply mix3_one.
Qed.

Lemma fog_blends_witness :
  let uniforms := FogShader.mkUniforms (FogShader.mkVec3 0.5 0.5 0.5) 1 0.3 0.2 in
  let sceneColor := FogShader.mkVec4 (FogShader.mkVec3 1 0 0) 1 in
  let vUv := FogShader.mkVec2 1 1 in
  let out := FogShader.main uniforms sceneColor vUv in
  let scene := FogShader.rgb sceneColor in
  let fog := FogShader.fogColor uniforms in
  let dist := FogShader.distance vUv (FogShader.mkVec2 0.5 0.5) in
  0 <= FogShader.fogFactor uniforms vUv <= 1
  /\ Rmin (FogShader.r scene) (FogShader.r fog) <= FogShader.r (FogShader.rgb out)
     <= Rmax (FogShader.r scene) (FogShader.r fog)
  /\ Rmin (FogShader.g scene) (FogShader.g fog) <= FogShader.g (FogShader.rgb out)
     <= Rmax (FogShader.g scene) (FogShader.g fog)
  /\ Rmin (FogShader.b scene) (FogShader.b fog) <= FogShader.b (FogShader.rgb out)
     <= Rmax (FogShader.b scene) (FogShader.b fog)
  /\ FogShader.a out = FogShader.a sceneColor
  /\ (dist <= FogShader.radius uniforms -> out = sceneColor)
  /\ (FogShader.strength uniforms = 1 ->
      FogShader.radius uniforms + FogShader.softness uniforms <= dist ->
      FogShader.rgb out = fog).
Proof.
  apply (fog_blends
           (FogShader.mkUniforms (FogShader.mkVec3 0.5 0.5 0.5) 1 0.3 0.2)
           (FogShader.mkVec4 (FogShader.mkVec3 1 0 0) 1)
           (FogShader.mkVec2 1 1));
    cbn [FogShader.softness FogShader.strength]; lra.
Defined.

(** ** Recentring *)

Section Recentring.

Lemma isEmpty_translate (box : Box3.t) (c : Vector3.t) :
  Box3.isEmpty (Box3.mk (Vector3.sub (Box3.min box) c)
                        (Vector3.sub (Box3.max box) c))
  = Box3.isEmpty box.
Proof.
  unfold Box3.isEmpty, Vector3.sub.
  cbn [Box3.min Box3.max Vector3.x Vector3.y Vector3.z].
  repeat match goal with
         | |- context [Rlt_dec ?a ?b] => destruct (Rlt_dec a b)
         end; try reflexivity; lra.
Qed.

End Recentring.

(** X13: recentring puts the model's bounding box around the origin, the
    point the camera looks at and the controller orbits: moving the model by
    minus the centre of its bounding box leaves the box's size (and whether
    it is empty) unchanged and makes its centre (0, 0, 0). *)
Theorem recentred_box_is_centred (box : Box3.t) :
  Box3.getCenter (recentred box) = Vector3.zero
  /\ Box3.getSize (recentred box) = Box3.getSize box
  /\ Box3.isEmpty (recentred box) = Box3.isEmpty box
  /\ maxDim (Box3.getSize (recentred box)) = maxDim (Box3.getSize box).
Proof.
  assert (He : Box3.isEmpty (recentred box) = Box3.isEmpty box)
    by apply isEmpty_translate.
  assert (Hs : Box3.getSize (recentred box) = Box3.getSize box).
  { unfold Box3.getSize. rewrite He.
    destruct (Box3.isEmpty box); [reflexivity|].
    unfold recentred, Vector3.sub.
    cbn [Box3.min Box3.max Vector3.x Vector3.y Vector3.z]. f_equal; ring. }
  split; [|split; [exact Hs | split; [exact He | now rewrite Hs]]].
  unfold Box3.getCenter at 1. rewrite He.
  destruct (Box3.isEmpty box) eqn:E; [reflexivity|].
  unfold recentred, Box3.getCenter. rewrite E.
  unfold Vector3.multiplyScalar, Vector3.add, Vector3.sub, Vector3.zero.
  cbn [Box3.min Box3.max Vector3.x Vector3.y Vector3.z]. f_equal; field.
Qed.

(** ** The line of sight *)

Section LineOfSight.

Lemma length_zero (w : Vector3.t) :
  Vector3.lengthSq w = 0 -> Vector3.length w = 0.
Proof. intros H. unfold Vector3.length. rewrite H. apply sqrt_0. Qed.

Lemma lookAtZ_offAxis (eye target : Vector3.t) :
  offAxis (Vector3.sub eye target) ->
  Vector3.sub target eye
  = Vector3.multiplyScalar (Vector3.negate (lookAtZ eye target))
      (Vector3.length (Vector3.sub eye target)).
Proof.
  set (w := Vector3.sub eye target).
  assert (Hw : Vector3.sub target eye = Vector3.negate w)
    by (unfold w, Vector3.sub, Vector3.negate;
        cbn [Vector3.x Vector3.y Vector3.z]; f_equal; ring).
  rewrite Hw. intros [H0|Hxz].
  - rewrite (length_zero w H0).
    destruct (lengthSq_zero w H0) as [Hx [Hy Hz]].
    unfold Vector3.negate, Vector3.multiplyScalar.
    cbn [Vector3.x Vector3.y Vector3.z]. rewrite Hx, Hy, Hz. f_equal; ring.
  - assert (Hne : Vector3.lengthSq w <> 0).
    { intros H0. destruct (lengthSq_zero w H0) as [Hx [_ Hz]].
      apply Hxz. rewrite Hx, Hz. ring. }
    assert (Hpos : 0 < Vector3.lengthSq w)
      by (generalize (lengthSq_nonneg w); lra).
    assert (HL : 0 < Vector3.length w) by now apply sqrt_lt_R0.
    assert (Hn : Vector3.normalize w
                 = Vector3.multiplyScalar w (1 / Vector3.length w)).
    { unfold Vector3.normalize, Vector3.divideScalar.
      destruct (Req_dec_T (Vector3.length w) 0); [lra | reflexivity]. }
    assert (Hz : lookAtZ eye target = Vector3.normalize w).
    { unfold lookAtZ. fold w.
      destruct (Req_dec_T (Vector3.lengthSq w) 0) as [H0|_]; [contradiction|].
      destruct (Req_dec_T (Vector3.lengthSq (Vector3.cross up (Vector3.normalize w))) 0)
        as [Hc|_]; [|reflexivity].
      exfalso. apply lengthSq_zero in Hc. destruct Hc as [Hcx [_ Hcz]].
      rewrite Hn in Hcx, Hcz.
      unfold Vector3.cross, up, Vector3.multiplyScalar in Hcx, Hcz.
      cbn [Vector3.x Vector3.y Vector3.z] in Hcx, Hcz.
      assert (Hi : 0 < 1 / Vector3.length w)
        by (apply Rdiv_lt_0_compat; lra).
      assert (Vector3.z w = 0) by nra.
      assert (Vector3.x w = 0) by nra.
      apply Hxz. nra. }
    rewrite Hz, Hn.
    unfold Vector3.negate, Vector3.multiplyScalar.
    cbn [Vector3.x Vector3.y Vector3.z]. f_equal; field; lra.
Qed.

Lemma lookAt_aimed (c : Camera.t) (target : Vector3.t) :
  offAxis (Vector3.sub (Camera.position c) target) ->
  Vector3.sub target (Camera.position (Camera.lookAt c target))
  = Vector3.multiplyScalar (Camera.direction (Camera.lookAt c target))
      (Vector3.length (Vector3.sub (Camera.position c) target)).
Proof.
  intros H. unfold Camera.lookAt. cbn [Camera.position Camera.direction].
  now apply lookAtZ_offAxis.
Qed.

Lemma toVector3_offAxis (s : Spherical.t) (t : Vector3.t) :
  Spherical.phi s = PI / 3 ->
  offAxis (Vector3.sub (Vector3.add t (Spherical.toVector3 s)) t).
Proof.
  intros Hp. unfold offAxis, Vector3.lengthSq, Vector3.sub, Vector3.add,
    Spherical.toVector3.
  cbn [Vector3.x Vector3.y Vector3.z]. rewrite Hp.
  destruct (Req_dec_T (Spherical.radius s) 0) as [H0|Hne].
  - left. rewrite H0. ring.
  - right.
    generalize sin_polar_pos (sin2_cos2 (Spherical.theta s)).
    unfold Rsqr. intros Hs Ht.
    set (k := sin (PI / 3) * Spherical.radius s).
    assert (Hk : k <> 0) by (unfold k; nra).
    replace (Vector3.x t + k * sin (Spherical.theta s) - Vector3.x t)
      with (k * sin (Spherical.theta s)) by ring.
    replace (Vector3.z t + k * cos (Spherical.theta s) - Vector3.z t)
      with (k * cos (Spherical.theta s)) by ring.
    assert (0 < k * k) by nra. nra.
Qed.

End LineOfSight.

Section Aim.

Lemma aimed_components (v : Viewer) (along : R) :
  aimedAt v along ->
  Vector3.x (OrbitControls.target (controls v))
  - Vector3.x (Camera.position (camera v))
  = Vector3.x (Camera.getWorldDirection (camera v)) * along
  /\ Vector3.y (OrbitControls.target (controls v))
     - Vector3.y (Camera.position (camera v))
     = Vector3.y (Camera.getWorldDirection (camera v)) * along
  /\ Vector3.z (OrbitControls.target (controls v))
     - Vector3.z (Camera.position (camera v))
     = Vector3.z (Camera.getWorldDirection (camera v)) * along.
Proof.
  unfold aimedAt. intros H.
  repeat split;
    [apply (f_equal Vector3.x) in H | apply (f_equal Vector3.y) in H
     | apply (f_equal Vector3.z) in H]; exact H.
Qed.

Lemma applyUpdate_aimed (v : Viewer) :
  exists along : R, aimedAt (orbitEffect Tick v) along.
Proof.
  unfold aimedAt, orbitEffect, OrbitControls.applyUpdate.
  cbn [camera controls OrbitControls.target Camera.getWorldDirection].
  eexists. apply lookAt_aimed.
  cbn [Camera.position Camera.setPosition].
  apply toVector3_offAxis. cbn [Spherical.phi]. apply clamp_same.
Qed.

Lemma applyUpdate_position_offAxis (v : Viewer) :
  offAxis (Vector3.sub (Camera.position (camera (orbitEffect Tick v)))
                       (OrbitControls.target (controls (orbitEffect Tick v)))).
Proof.
  unfold orbitEffect, OrbitControls.applyUpdate.
  cbn [camera controls OrbitControls.target Camera.position Camera.lookAt
       Camera.setPosition].
  apply toVector3_offAxis. cbn [Spherical.phi]. apply clamp_same.
Qed.

Lemma constructed_aimInvariant (w h : R) : aimInvariant (constructed w h).
Proof.
  split.
  - exists 0. unfold aimedAt, constructed, Vector3.sub, Vector3.multiplyScalar,
      Vector3.zero.
    cbn. f_equal; ring.
  - left. unfold constructed, Vector3.lengthSq, Vector3.sub, Vector3.zero.
    cbn. ring.
Qed.

Lemma onLoad_aimInvariant (box : Box3.t) (v : Viewer) :
  aimInvariant (onLoad box v).
Proof.
  unfold aimInvariant, onLoad, OrbitControls.update.
  set (v1 := mkViewer
                 (Camera.setClipping
                    (Camera.lookAt
                       (Camera.setPosition (camera v)
                          (framePosition
                             (frameDistance (Box3.getSize box)
                                (Camera.fov (camera v)))))
                       Vector3.zero)
                    (frameNear (Box3.getSize box)) (frameFar (Box3.getSize box)))
                 (OrbitControls.setLimits
                    (OrbitControls.setTarget (controls v) Vector3.zero)
                    (frameMinDistance (Box3.getSize box))
                    (Some (frameMaxDistance (Box3.getSize box))))
                 (isShiftDragging v) (previousY v) false).
  split.
  - destruct (applyUpdate_aimed v1) as [along H]. exists along. exact H.
  - exact (applyUpdate_position_offAxis v1).
Qed.

Lemma step_aimInvariant (v : Viewer) (e : Event) :
  aimInvariant v -> aimInvariant (step v e).
Proof.
  intros [[along Ha] Hb].
  destruct e; cbn [step].
  - unfold onMouseDown. destruct ((button =? 0)%Z && shiftKey);
      (split; [exists along; exact Ha | exact Hb]).
  - unfold onMouseUp. destruct (isShiftDragging v);
      (split; [exists along; exact Ha | exact Hb]).
  - unfold onMouseMove. destruct (isShiftDragging v);
      [|split; [exists along; exact Ha | exact Hb]].
    split; [|exact Hb].
    exists (along - - (clientY - previousY v) * zoomSpeed).
    destruct (aimed_components v along Ha) as [Hx [Hy Hz]].
    unfold aimedAt, Vector3.sub, Vector3.multiplyScalar,
      Vector3.addScaledVector.
    cbn [camera controls Camera.position Camera.setPosition
         Camera.getWorldDirection Camera.direction Vector3.x Vector3.y
         Vector3.z].
    unfold Camera.getWorldDirection in *.
    f_equal; lra.
  - split; [exists along; exact Ha | exact Hb].
  - split; [exists along; exact Ha | exact Hb].
  - unfold onOrbitDrag, OrbitControls.rotate.
    destruct (OrbitControls.enabled (controls v));
      (split; [exists along; exact Ha | exact Hb]).
  - unfold onWheel, OrbitControls.zoom.
    destruct (OrbitControls.enabled (controls v));
      (split; [exists along; exact Ha | exact Hb]).
  - change (animate v) with (orbitEffect Tick v).
    split; [apply applyUpdate_aimed | exact Hb].
  - split; [|exact Hb].
    apply (applyUpdate_aimed
             (mkViewer
                (Camera.setPosition (camera v)
                   (OrbitControls.position0 (controls v)))
                (OrbitControls.mk
                   (OrbitControls.enabled (controls v))
                   (OrbitControls.target0 (controls v))
                   (OrbitControls.minDistance (controls v))
                   (OrbitControls.maxDistance (controls v))
                   (OrbitControls.thetaDelta (controls v))
                   (OrbitControls.phiDelta (controls v))
                   (OrbitControls.scale (controls v))
                   (OrbitControls.spherical (controls v))
                   (OrbitControls.position0 (controls v))
                   (OrbitControls.target0 (controls v)))
                (isShiftDragging v) (previousY v) (progressVisible v))).
  - split; [exists along; exact Ha | exact Hb].
  - apply onLoad_aimInvariant.
  - split; [exists along; exact Ha | exact Hb].
Qed.

Lemma reachable_aimInvariant (w h : R) (es : list Event) :
  aimInvariant (run (initial w h) es).
Proof.
  apply run_invariant; [apply step_aimInvariant|].
  apply (step_aimInvariant (constructed w h) Tick).
  apply constructed_aimInvariant.
Qed.

Lemma aimed_distance (v : Viewer) (along : R) :
  unitDirection v -> aimedAt v along ->
  Vector3.distanceTo (Camera.position (camera v))
                     (OrbitControls.target (controls v)) = Rabs along.
Proof.
  intros Hu Ha. unfold Vector3.distanceTo.
  replace (Vector3.sub (Camera.position (camera v))
                       (OrbitControls.target (controls v)))
    with (Vector3.negate
            (Vector3.sub (OrbitControls.target (controls v))
                         (Camera.position (camera v))))
    by (unfold Vector3.negate, Vector3.sub;
        cbn [Vector3.x Vector3.y Vector3.z]; f_equal; ring).
  rewrite length_negate, Ha, length_multiplyScalar.
  unfold unitDirection in Hu. rewrite Hu. ring.
Qed.

End Aim.

(** X14: the modifier-drag is a dolly along the line of sight to the orbit
    target.  In every reachable state the orbit target lies on the line
    through the camera along its view direction, at a signed distance
    `along` whose magnitude is the camera's distance from the target; a
    pointer move during the gesture that translates the camera by s along
    the view direction leaves the target at along - s on that line, so the
    distance to the target becomes |along - s|: a forward move by s <= along
    brings the camera exactly s closer, and a longer one takes it through
    the target. *)
Theorem dolly_along_line_of_sight (innerWidth innerHeight : R)
    (es : list Event) :
  let v := run (initial innerWidth innerHeight) es in
  exists along : R,
    aimedAt v along
    /\ Vector3.distanceTo (Camera.position (camera v))
                          (OrbitControls.target (controls v)) = Rabs along
    /\ (isShiftDragging v = true ->
        forall (shiftKey : bool) (clientY : R),
          let s := - (clientY - previousY v) * zoomSpeed in
          let v' := step v (MouseMove shiftKey clientY) in
          let dist := Vector3.distanceTo (Camera.position (camera v))
                                         (OrbitControls.target (controls v)) in
          let dist' := Vector3.distanceTo (Camera.position (camera v'))
                                          (OrbitControls.target (controls v')) in
          aimedAt v' (along - s)
          /\ dist' = Rabs (along - s)
          /\ (0 <= s <= along -> dist' = dist - s)
          /\ (0 <= along <= s -> dist' = s - dist)).
Proof.
  intros v.
  destruct (reachable_aimInvariant innerWidth innerHeight es) as [[along Ha] _].
  fold v in Ha.
  pose proof (reachable_unitDirection innerWidth innerHeight es) as Hu.
  fold v in Hu.
  pose proof (aimed_distance v along Hu Ha) as Hdist.
  exists along. split; [exact Ha|]. split; [exact Hdist|].
  intros Hd shiftKey clientY s v' dist dist'.
  assert (Ha' : aimedAt v' (along - s)).
  { destruct (aimed_components v along Ha) as [Hx [Hy Hz]].
    unfold v'. cbn [step]. unfold onMouseMove. rewrite Hd.
    unfold aimedAt, Vector3.sub, Vector3.multiplyScalar,
      Vector3.addScaledVector.
    cbn [camera controls Camera.position Camera.setPosition
         Camera.getWorldDirection Camera.direction Vector3.x Vector3.y
         Vector3.z].
    unfold Camera.getWorldDirection in *. unfold s.
    f_equal; lra. }
  assert (Hu' : unitDirection v') by now apply step_unitDirection.
  pose proof (aimed_distance v' (along - s) Hu' Ha') as Hdist'.
  fold dist' in Hdist'. fold dist in Hdist.
  split; [exact Ha'|]. split; [exact Hdist'|]. split.
  - intros [H0 H1]. rewrite Hdist', Hdist, !Rabs_right by lra. reflexivity.
  - intros [H0 H1]. rewrite Hdist', Hdist.
    rewrite (Rabs_right along) by lra.
    rewrite Rabs_left1 by lra. ring.
Qed.

(** ** The mode as a function of the events *)

Section ModeMachine.

Lemma step_mode (v : Viewer) (e : Event) :
  modeOf (step v e) = modeStep (modeOf v) e.
Proof.
  unfold modeOf. destruct e; cbn [step modeStep]; try reflexivity.
  - unfold onMouseDown.
    destruct ((button =? 0)%Z && shiftKey); reflexivity.
  - unfold onMouseUp. destruct (isShiftDragging v) eqn:E; cbn; now rewrite ?E.
  - unfold onMouseMove. destruct (isShiftDragging v) eqn:E; cbn; now rewrite ?E.
Qed.

Lemma run_mode (es : list Event) (v : Viewer) :
  modeOf (run v es) = fold_left modeStep es (modeOf v).
Proof.
  revert v. induction es as [|e es IH]; intros v; [reflexivity|].
  change (run v (e :: es)) with (run (step v e) es).
  rewrite IH, step_mode. reflexivity.
Qed.

End ModeMachine.

(** X15: the three mouse listeners implement a two-state machine: starting
    in orbit mode, after any sequence of events the viewer is in the mode
    that machine reaches on the same events (dolly is entered by a
    mousedown of button 0 with shift, left by any mouseup, and nothing else
    changes the mode), and the orbit controller is enabled exactly in orbit
    mode. *)
Theorem mode_follows_machine (innerWidth innerHeight : R) (es : list Event) :
  let v := run (initial innerWidth innerHeight) es in
  let m := fold_left modeStep es Orbit in
  modeOf v = m
  /\ isShiftDragging v = match m with Dolly => true | Orbit => false end
  /\ OrbitControls.enabled (controls v)
     = match m with Dolly => false | Orbit => true end.
Proof.
  intros v m.
  assert (Hm : modeOf v = m) by (unfold v, m; now rewrite run_mode).
  pose proof (reachable_modeInvariant innerWidth innerHeight es) as Hi.
  fold v in Hi. unfold modeInvariant in Hi.
  split; [exact Hm|]. rewrite Hi. rewrite <- Hm. unfold modeOf.
  destruct (isShiftDragging v); split; reflexivity.
Qed.

(** ** Field of view and distance *)

(** X16: a wider field of view frames from closer: for a bounding volume
    with maxDim > 0 the framing distance is positive and strictly
    decreasing in the field of view over (0, 180) degrees. *)
Theorem frameDistance_decreasing (size : Vector3.t) (fov1 fov2 : R) :
  0 < maxDim size -> 0 < fov1 -> fov1 < fov2 -> fov2 < 180 ->
  0 < frameDistance size fov2 < frameDistance size fov1.
Proof.
  intros Hm H1 H12 H2.
  assert (Hr1 : 0 < fovRadians fov1 / 2 < PI / 2)
    by (apply half_fov_range; lra).
  assert (Hr2 : 0 < fovRadians fov2 / 2 < PI / 2)
    by (apply half_fov_range; lra).
  assert (Hlt : fovRadians fov1 / 2 < fovRadians fov2 / 2)
    by (unfold fovRadians; generalize PI_RGT_0; nra).
  assert (Ht1 : 0 < tan (fovRadians fov1 / 2)) by (apply tan_gt_0; lra).
  assert (Ht : tan (fovRadians fov1 / 2) < tan (fovRadians fov2 / 2)).
  { apply tan_increasing; lra. }
  split; [apply frameDistance_pos; lra|].
  unfold frameDistance.
  set (t1 := tan (fovRadians fov1 / 2)) in *.
  set (t2 := tan (fovRadians fov2 / 2)) in *.
  assert (Hinv : / (2 * t2) < / (2 * t1))
    by (apply Rinv_lt_contravar; nra).
  unfold Rdiv. nra.
Qed.

Lemma frameDistance_decreasing_witness :
  0 < frameDistance (Vector3.mk 10 10 10) 90
    < frameDistance (Vector3.mk 10 10 10) 75.
Proof.
  apply (frameDistance_decreasing (Vector3.mk 10 10 10) 75 90);
    try lra.
  rewrite maxDim_cube. lra.
Defined.

(** ** The pose the load leaves *)

Section FramedPose.

Lemma initial_pending (w h : R) :
  OrbitControls.thetaDelta (controls (initial w h)) = 0
  /\ OrbitControls.phiDelta (controls (initial w h)) = 0.
Proof.
  unfold initial, animate, constructed, OrbitControls.update,
    OrbitControls.applyUpdate.
  cbn [controls camera OrbitControls.enabled OrbitControls.thetaDelta
       OrbitControls.phiDelta].
  split; ring.
Qed.

Lemma setFromVector3_framePosition (d : R) :
  0 < d ->
  Spherical.theta
    (Spherical.setFromVector3 (Vector3.sub (framePosition d) Vector3.zero))
  = PI / 4
  /\ Spherical.radius
       (Spherical.setFromVector3 (Vector3.sub (framePosition d) Vector3.zero))
     = sqrt 0.1924 * d.
Proof.
  intros Hd.
  assert (Hl : Vector3.length (Vector3.sub (framePosition d) Vector3.zero)
               = sqrt 0.1924 * d).
  { change (Vector3.distanceTo (framePosition d) Vector3.zero = sqrt 0.1924 * d).
    rewrite distanceTo_zero. apply length_framePosition. lra. }
  split; [|now rewrite setFromVector3_radius].
  unfold Spherical.setFromVector3. rewrite Hl.
  destruct (Req_dec_T (sqrt 0.1924 * d) 0) as [H0|_].
  - exfalso. generalize sqrt_ratio_bounds. nra.
  - cbn [Spherical.theta]. unfold Vector3.sub, Vector3.zero.
    cbn [Vector3.x Vector3.z]. rewrite !Rminus_0_r.
    rewrite framePosition_x_z. apply atan2_diagonal.
    now apply framePosition_x_pos.
Qed.

Lemma onLoad_spherical (box : Box3.t) (v : Viewer) :
  let d := frameDistance (Box3.getSize box) (Camera.fov (camera v)) in
  let s := Spherical.setFromVector3
             (Vector3.sub (framePosition d) Vector3.zero) in
  OrbitControls.spherical (controls (onLoad box v))
  = Spherical.mk
      (clamp (frameMinDistance (Box3.getSize box))
             (frameMaxDistance (Box3.getSize box))
             (Spherical.radius s * OrbitControls.scale (controls v)))
      (clamp minPolarAngle maxPolarAngle
             (Spherical.phi s
              + OrbitControls.phiDelta (controls v) * dampingFactor))
      (clamp minAzimuthAngle maxAzimuthAngle
             (Spherical.theta s
              + OrbitControls.thetaDelta (controls v) * dampingFactor)).
Proof.
  intros d s. reflexivity.
Qed.

End FramedPose.

(** X17: the pose a load leaves in the freshly started viewer.  With the
    orbit controller modelled as in spec section 4.2 (its update clamps the
    polar angle to pi/3), loading a box with maxDim > 0 into the initial
    viewer leaves the camera at spherical coordinates (r, pi/3, pi/4) around
    the origin, with r = sqrt(0.1924) * distance the length of the position
    the callback set: the set azimuth and distance are kept, but the height
    becomes r / 2, lower than the 0.4 * distance the callback set. *)
Theorem framed_pose_after_load (innerWidth innerHeight : R) (box : Box3.t) :
  0 < maxDim (Box3.getSize box) ->
  let d := frameDistance (Box3.getSize box) 75 in
  let r := sqrt 0.1924 * d in
  let v' := step (initial innerWidth innerHeight) (Loaded box) in
  let p := Camera.position (camera v') in
  OrbitControls.spherical (controls v') = Spherical.mk r (PI / 3) (PI / 4)
  /\ p = Vector3.add Vector3.zero
           (Spherical.toVector3 (Spherical.mk r (PI / 3) (PI / 4)))
  /\ Vector3.y p = r / 2
  /\ Vector3.x p = Vector3.z p
  /\ Vector3.y p < Vector3.y (framePosition d)
  /\ Vector3.distanceTo p (OrbitControls.target (controls v')) = r.
Proof.
  intros Hm d r v' p.
  destruct (initial_controller innerWidth innerHeight) as [Hen [Hsc Hfov]].
  destruct (initial_pending innerWidth innerHeight) as [Hth Hph].
  assert (Hd : 0 < d) by (apply frameDistance_pos; lra).
  destruct (setFromVector3_framePosition d Hd) as [Htheta Hrad].
  destruct (framed_radius_in_range (Box3.getSize box) Hm) as [_ [_ Hclamp]].
  fold d in Hclamp. rewrite distanceTo_zero in Hclamp.
  rewrite length_framePosition in Hclamp by lra. fold r in Hclamp.
  assert (Hs : OrbitControls.spherical (controls v')
               = Spherical.mk r (PI / 3) (PI / 4)).
  { unfold v'. cbn [step]. rewrite onLoad_spherical.
    rewrite Hsc, Hfov, Hth, Hph. fold d. rewrite Htheta, Hrad. fold r.
    rewrite Rmult_1_r, Hclamp. unfold minPolarAngle, maxPolarAngle.
    rewrite clamp_same. f_equal.
    rewrite Rmult_0_l, Rplus_0_r.
    unfold minAzimuthAngle, maxAzimuthAngle. apply clamp_inside.
    generalize PI_RGT_0. lra. }
  assert (Hp : p = Vector3.add Vector3.zero
                     (Spherical.toVector3 (Spherical.mk r (PI / 3) (PI / 4)))).
  { unfold p, v'. cbn [step]. rewrite onLoad_position.
    change (onLoad box (initial innerWidth innerHeight)) with v'.
    now rewrite Hs. }
  assert (Hr : 0 < r) by (unfold r; generalize sqrt_ratio_bounds; nra).
  split; [exact Hs|]. split; [exact Hp|].
  assert (Hy : Vector3.y p = r / 2).
  { rewrite Hp. unfold Vector3.add, Vector3.zero, Spherical.toVector3.
    cbn [Vector3.y Spherical.phi Spherical.radius]. rewrite cos_PI3. lra. }
  split; [exact Hy|]. split.
  - rewrite Hp. unfold Vector3.add, Vector3.zero, Spherical.toVector3.
    cbn [Vector3.x Vector3.z Spherical.phi Spherical.radius Spherical.theta].
    rewrite sin_cos_PI4. reflexivity.
  - split.
    + rewrite Hy. unfold framePosition, heightMultiplier. cbn [Vector3.y].
      unfold r. generalize sqrt_ratio_bounds. nra.
    + destruct (onLoad_installs box (initial innerWidth innerHeight))
        as [_ [_ [Ht _]]].
      change (onLoad box (initial innerWidth innerHeight)) with v' in Ht.
      rewrite Ht, Hp, distanceTo_add. rewrite length_toVector3; cbn [Spherical.radius]; lra.
Qed.

Lemma framed_pose_after_load_witness :
  let box := Box3.mk Vector3.zero (Vector3.mk 10 10 10) in
  let d := frameDistance (Box3.getSize box) 75 in
  let r := sqrt 0.1924 * d in
  let v' := step (initial 1920 1080) (Loaded box) in
  let p := Camera.position (camera v') in
  OrbitControls.spherical (controls v') = Spherical.mk r (PI / 3) (PI / 4)
  /\ p = Vector3.add Vector3.zero
           (Spherical.toVector3 (Spherical.mk r (PI / 3) (PI / 4)))
  /\ Vector3.y p = r / 2
  /\ Vector3.x p = Vector3.z p
  /\ Vector3.y p < Vector3.y (framePosition d)
  /\ Vector3.distanceTo p (OrbitControls.target (controls v')) = r.
Proof.
  apply (framed_pose_after_load 1920 1080
           (Box3.mk Vector3.zero (Vector3.mk 10 10 10))).
  rewrite getSize_cube_10, maxDim_cube. lra.
Defined.

(** ** Reset and the motion still pending *)

Section Reset.

















End Reset.




(** ** The update during the gesture *)

Section UpdateDuringGesture.





End UpdateDuringGesture.

